(** * The Binance exchange wrapper of gekko: a shallow embedding

    This development embeds [exchange/wrappers/binance.js] and proves
    properties of its two error classifiers, its precision and rounding
    helpers, its validity checks, the requests it builds and the
    completions of its operations.

    The file has two layers of definitions.  [JS] holds the fragments of
    ECMAScript the wrapper relies on: IEEE-754 binary64 numbers (taken
    from the [SpecFloat] specification of the Standard Library, which is
    executable), [Math.floor], [Math.round], the conversions between
    numbers and strings, string search and splitting, and a small regular
    expression matcher.  [Binance] holds the functions of the wrapper,
    translated one by one.  Lemmas and theorems follow the definitions. *)

From Stdlib Require Import ZArith Lia List Bool Ascii String DecimalString.
From Stdlib Require Import Floats.SpecFloat.
From Stdlib Require DecimalN DecimalPos.
From stdpp Require Import gmap strings.

Local Open Scope Z_scope.

(** * The ECMAScript fragment *)

Module JS.

(** ** Numbers

    A JavaScript number is an IEEE-754 binary64 value.  [spec_float]
    carries a sign, a mantissa and an exponent; NaN has no payload, as in
    JavaScript.  Arithmetic rounds to nearest, ties to even. *)

Definition prec : Z := 53.
Definition emax : Z := 1024.

Definition number : Type := spec_float.

Definition NaN : number := S754_nan.
Definition Infinity : number := S754_infinity false.

Definition mul : number -> number -> number := SFmul prec emax.
Definition div : number -> number -> number := SFdiv prec emax.
Definition add : number -> number -> number := SFadd prec emax.
Definition Math_abs : number -> number := SFabs.

(** The binary64 value nearest to the integer [z]. *)
Definition ofZ (z : Z) : number := binary_normalize prec emax z 0 false.

(** [x === y] and [x !== y] on two numbers: NaN differs from everything,
    the two zeros are equal. *)
Definition strict_eq (x y : number) : bool := SFeqb x y.
Definition strict_neq (x y : number) : bool := negb (SFeqb x y).

Definition isFinite (x : number) : bool :=
  match x with
  | S754_zero _ | S754_finite _ _ _ => true
  | S754_infinity _ | S754_nan => false
  end.

Definition isNaN (x : number) : bool :=
  match x with
  | S754_nan => true
  | _ => false
  end.

(** [Math.floor]: the greatest integer not above [x]; zeros, infinities
    and NaN are returned unchanged.  A finite value is [+-m * 2^e]; when
    [e < 0] the integer part is a floored division, and it fits the
    mantissa, so [ofZ] is exact on it. *)
Definition Math_floor (x : number) : number :=
  match x with
  | S754_finite s m e =>
      if 0 <=? e then x
      else match cond_Zopp s (Zpos m) / 2 ^ (- e) with
           | Z0 => S754_zero s
           | z => ofZ z
           end
  | _ => x
  end.

(** [Math.round]: the integer nearest to [x], a tie going towards
    [+Infinity]; that is [floor (x + 1/2)] computed exactly.  A result of
    zero keeps the sign of [x]. *)
Definition Math_round (x : number) : number :=
  match x with
  | S754_finite s m e =>
      if 0 <=? e then x
      else match (2 * cond_Zopp s (Zpos m) + 2 ^ (- e)) / 2 ^ (- e + 1) with
           | Z0 => S754_zero s
           | z => ofZ z
           end
  | _ => x
  end.

(** [Math.pow(10, t)] for a count [t]: the binary64 value nearest to
    [10^t].  It is [10^t] itself up to [t = 22], which covers the tick
    sizes of every market; beyond that ECMAScript leaves the last bit of
    [Math.pow] to the implementation, and the nearest value is taken. *)
Definition Math_pow10 (t : nat) : number := ofZ (10 ^ Z.of_nat t).

(** The binary64 value nearest to the decimal [+-d * 10^x], [d >= 0]:
    what a numeric literal or a numeric string denotes. *)
Definition of_decimal (neg : bool) (d x : Z) : number :=
  match d with
  | Zpos _ =>
      if 0 <=? x then binary_normalize prec emax (cond_Zopp neg (d * 10 ^ x)) 0 false
      else let '(q, e, l) := SFdiv_core_binary prec emax d 0 (10 ^ (- x)) 0 in
           binary_round_aux prec emax neg q e l
  | _ => S754_zero neg
  end.

(** A number used as an array length ([new Array(l)]): a non-negative
    integer below [2^32], anything else is a RangeError. *)
Definition array_length (l : number) : option nat :=
  match l with
  | S754_zero _ => Some 0%nat
  | S754_finite false m e =>
      let z := if 0 <=? e then Zpos m * 2 ^ e
               else if Zpos m mod 2 ^ (- e) =? 0 then Zpos m / 2 ^ (- e) else -1 in
      if (0 <=? z) && (z <? 2 ^ 32) then Some (Z.to_nat z) else None
  | _ => None
  end.

(** ** Strings *)

Definition is_digit (c : ascii) : bool :=
  let n := N_of_ascii c in (48 <=? n)%N && (n <=? 57)%N.

Definition digit_value (c : ascii) : Z := Z.of_N (N_of_ascii c) - 48.

(** White space that [parseFloat] and the string-to-number conversion
    skip (the ASCII part of it). *)
Definition is_space (c : ascii) : bool :=
  let n := N_of_ascii c in ((9 <=? n)%N && (n <=? 13)%N) || (n =? 32)%N.

(** [s.includes(t)]: [t] occurs in [s] at some position. *)
Fixpoint String_includes (s t : string) : bool :=
  if String.prefix t s then true
  else match s with
       | EmptyString => false
       | String _ s' => String_includes s' t
       end.

Definition lower (c : ascii) : ascii :=
  let n := N_of_ascii c in
  if (65 <=? n)%N && (n <=? 90)%N then ascii_of_N (n + 32) else c.

(** [s.toLowerCase()] (on ASCII letters). *)
Fixpoint toLowerCase (s : string) : string :=
  match s with
  | EmptyString => EmptyString
  | String c r => String (lower c) (toLowerCase r)
  end.

(** [s.split(sep)] for a separator of one character. *)
Fixpoint split (sep : ascii) (s : string) : list string :=
  match s with
  | EmptyString => [EmptyString]
  | String c r =>
      if Ascii.eqb c sep then EmptyString :: split sep r
      else match split sep r with
           | p :: ps => String c p :: ps
           | [] => [String c EmptyString]
           end
  end.

(** [parts.join('')]. *)
Definition join (parts : list string) : string := String.concat "" parts.

Fixpoint zeros (n : nat) : string :=
  match n with
  | O => EmptyString
  | S k => String "0" (zeros k)
  end.

(** [new Array(l).join('0')]: an array of [l] holes joined by ["0"] is
    [l - 1] zeros (none for the empty array). *)
Definition Array_join_zero (l : number) : option string :=
  option_map (fun n => zeros (Nat.pred n)) (array_length l).

Fixpoint take (n : nat) (s : string) : string :=
  match n, s with
  | S k, String c r => String c (take k r)
  | _, _ => EmptyString
  end.

Fixpoint drop (n : nat) (s : string) : string :=
  match n, s with
  | S k, String _ r => drop k r
  | _, _ => s
  end.

(** ** Regular expressions

    A matcher by derivatives; a character class is a predicate.
    [regex_test r s] is [r.test(s)]: some substring of [s] matches [r]. *)

Inductive regex : Type :=
| Void
| Eps
| Chr (p : ascii -> bool)
| Cat (r1 r2 : regex)
| Alt (r1 r2 : regex)
| Star (r : regex).

Definition Plus (r : regex) : regex := Cat r (Star r).
Definition Opt (r : regex) : regex := Alt Eps r.
Definition any_char : regex := Chr (fun _ => true).

Fixpoint nullable (r : regex) : bool :=
  match r with
  | Void => false
  | Eps => true
  | Chr _ => false
  | Cat r1 r2 => nullable r1 && nullable r2
  | Alt r1 r2 => nullable r1 || nullable r2
  | Star _ => true
  end.

Fixpoint deriv (c : ascii) (r : regex) : regex :=
  match r with
  | Void => Void
  | Eps => Void
  | Chr p => if p c then Eps else Void
  | Cat r1 r2 =>
      if nullable r1 then Alt (Cat (deriv c r1) r2) (deriv c r2)
      else Cat (deriv c r1) r2
  | Alt r1 r2 => Alt (deriv c r1) (deriv c r2)
  | Star r1 => Cat (deriv c r1) (Star r1)
  end.

Fixpoint regex_full (r : regex) (s : string) : bool :=
  match s with
  | EmptyString => nullable r
  | String c s' => regex_full (deriv c r) s'
  end.

Definition regex_test (r : regex) (s : string) : bool :=
  regex_full (Cat (Star any_char) (Cat r (Star any_char))) s.

(** ** Strings to numbers *)

(** Reads a run of decimal digits: the value accumulated on [acc], the
    number of digits read added to [n], and the rest of the string. *)
Fixpoint scan_digits (s : string) (acc n : Z) : Z * Z * string :=
  match s with
  | String c r =>
      if is_digit c then scan_digits r (10 * acc + digit_value c) (n + 1)
      else (acc, n, s)
  | EmptyString => (acc, n, s)
  end.

(** An exponent part [e], [e+] or [e-] followed by at least one digit;
    when it is not there nothing is consumed. *)
Definition scan_exponent (s : string) : Z * string :=
  match s with
  | String c r =>
      if Ascii.eqb (lower c) "e" then
        let '(neg, r') :=
          match r with
          | String "+" r' => (false, r')
          | String "-" r' => (true, r')
          | _ => (false, r)
          end in
        let '(x, n, rest) := scan_digits r' 0 0 in
        if n =? 0 then (0, s) else (cond_Zopp neg x, rest)
      else (0, s)
  | EmptyString => (0, s)
  end.

(** The longest prefix that is an unsigned decimal literal (digits, an
    optional fraction, an optional exponent), as a digit string [d] and
    a decimal exponent [x], with the rest of the string. *)
Definition scan_decimal (s : string) : option (Z * Z * string) :=
  let '(i, ni, r1) := scan_digits s 0 0 in
  let '(d, nf, r2) :=
    match r1 with
    | String "." r => scan_digits r i 0
    | _ => (i, 0, r1)
    end in
  if (ni =? 0) && (nf =? 0) then None
  else let '(x, r3) := scan_exponent r2 in Some (d, x - nf, r3).

Definition scan_unsigned (neg : bool) (s : string) : option (number * string) :=
  if String.prefix "Infinity" s then Some (S754_infinity neg, drop 8 s)
  else match scan_decimal s with
       | Some (d, x, rest) => Some (of_decimal neg d x, rest)
       | None => None
       end.

Definition scan_signed (s : string) : option (number * string) :=
  match s with
  | String "+" r => scan_unsigned false r
  | String "-" r => scan_unsigned true r
  | _ => scan_unsigned false s
  end.

Fixpoint skip_spaces (s : string) : string :=
  match s with
  | String c r => if is_space c then skip_spaces r else s
  | EmptyString => s
  end.

(** [parseFloat(s)]: leading white space is skipped, the longest prefix
    that is a decimal literal is read, and what follows it is ignored;
    NaN when there is no such prefix. *)
Definition parseFloat_string (s : string) : number :=
  match scan_signed (skip_spaces s) with
  | Some (n, _) => n
  | None => NaN
  end.

(** Digits of a literal in base 2, 8 or 16. *)
Definition radix_digit (radix : Z) (c : ascii) : option Z :=
  let n := Z.of_N (N_of_ascii (lower c)) in
  let v := if is_digit c then n - 48
           else if (97 <=? n) && (n <=? 102) then n - 87 else radix in
  if v <? radix then Some v else None.

Fixpoint scan_radix (radix : Z) (s : string) (acc : Z) : option Z :=
  match s with
  | EmptyString => Some acc
  | String c r =>
      match radix_digit radix c with
      | Some v => scan_radix radix r (radix * acc + v)
      | None => None
      end
  end.

Definition radix_literal (s : string) : option Z :=
  match s with
  | String "0" (String c (String d r)) =>
      let body := String d r in
      if Ascii.eqb (lower c) "x" then scan_radix 16 body 0
      else if Ascii.eqb (lower c) "o" then scan_radix 8 body 0
      else if Ascii.eqb (lower c) "b" then scan_radix 2 body 0
      else None
  | _ => None
  end.

(** The conversion of a string to a number, as unary [+] and the
    arithmetic operators apply it: white space is trimmed on both sides,
    the empty string is [0], the whole of the rest must be one numeric
    literal, and anything else is NaN. *)
Definition StringToNumber (s : string) : number :=
  let t := skip_spaces s in
  match t with
  | EmptyString => S754_zero false
  | _ =>
      match radix_literal (String.rev (skip_spaces (String.rev t))) with
      | Some z => ofZ z
      | None =>
          match scan_signed t with
          | Some (n, rest) =>
              match skip_spaces rest with
              | EmptyString => n
              | _ => NaN
              end
          | None => NaN
          end
      end
  end.

(** ** Numbers to strings

    The conversion of a finite number [v = m * 2^e] to a string picks
    the shortest decimal [s * 10^j] that reads back as [v], and among
    those of that length the one nearest to [v] (an even [s] on a tie),
    as ECMAScript recommends and the engines do. *)

(** Four times the lower end of the rounding interval of [m * 2^e], in
    units of [2^(e-2)]; the upper end is [4m + 2].  The lower gap is half
    as wide when [m] is the least mantissa of its binade. *)
Definition low4 (m : positive) (e : Z) : Z :=
  if Pos.eqb m (2 ^ 52) && (-1074 <? e) then 4 * Zpos m - 1 else 4 * Zpos m - 2.

(** The multiple of [10^j] nearest to [m * 2^e] that rounds to it, if
    there is one (the ends of the interval round to [m * 2^e] exactly
    when [m] is even). *)
Definition candidate (m : positive) (e j : Z) : option Z :=
  let E := e - 2 in
  let A := 2 ^ Z.max E 0 * 10 ^ Z.max (- j) 0 in
  let B := 2 ^ Z.max (- E) 0 * 10 ^ Z.max j 0 in
  let V := 4 * Zpos m * A in
  let L := low4 m e * A in
  let H := (4 * Zpos m + 2) * A in
  let s0 := V / B in
  let inside s := if Z.even (Zpos m) then (L <=? s * B) && (s * B <=? H)
                  else (L <? s * B) && (s * B <? H) in
  match inside s0, inside (s0 + 1) with
  | true, true =>
      match (V - s0 * B) ?= ((s0 + 1) * B - V) with
      | Lt => Some s0
      | Gt => Some (s0 + 1)
      | Eq => Some (if Z.even s0 then s0 else s0 + 1)
      end
  | true, false => Some s0
  | false, true => Some (s0 + 1)
  | false, false => None
  end.

(** The least [n] from a lower estimate on with [m * 2^e < 10^n]. *)
Fixpoint decimal_exponent (fuel : nat) (m : positive) (e n : Z) : Z :=
  match fuel with
  | O => n
  | S f =>
      if Zpos m * 2 ^ Z.max e 0 * 10 ^ Z.max (- n) 0 <? 2 ^ Z.max (- e) 0 * 10 ^ Z.max n 0
      then n else decimal_exponent f m e (n + 1)
  end.

(** The first digit count [k] from [k] on that has a candidate. *)
Fixpoint shortest (fuel : nat) (m : positive) (e n0 k : Z) : Z * Z :=
  match fuel with
  | O => (Zpos m, 0)
  | S f =>
      match candidate m e (n0 - k) with
      | Some s => (s, n0 - k)
      | None => shortest f m e n0 (k + 1)
      end
  end.

Fixpoint strip0 (fuel : nat) (s j : Z) : Z * Z :=
  match fuel with
  | O => (s, j)
  | S f =>
      if (s mod 10 =? 0) && negb (s =? 0) then strip0 f (s / 10) (j + 1) else (s, j)
  end.

Definition digits10 (z : Z) : string := NilZero.string_of_uint (N.to_uint (Z.to_N z)).

(** The layout of the digits [ds] of a number [0.ds * 10^n]: plain
    decimal notation when [-6 < n <= 21], exponent notation otherwise. *)
Definition format (ds : string) (n : Z) : string :=
  let k := Z.of_nat (String.length ds) in
  if (k <=? n) && (n <=? 21) then ds +:+ zeros (Z.to_nat (n - k))
  else if (0 <? n) && (n <=? 21) then take (Z.to_nat n) ds +:+ "." +:+ drop (Z.to_nat n) ds
  else if (-6 <? n) && (n <=? 0) then "0." +:+ zeros (Z.to_nat (- n)) +:+ ds
  else
    let es := (if 0 <=? n - 1 then "+" else "-") +:+ digits10 (Z.abs (n - 1)) in
    if k =? 1 then ds +:+ "e" +:+ es
    else take 1 ds +:+ "." +:+ drop 1 ds +:+ "e" +:+ es.

Definition Number_toString (x : number) : string :=
  match x with
  | S754_nan => "NaN"
  | S754_zero _ => "0"
  | S754_infinity s => if s then "-Infinity" else "Infinity"
  | S754_finite sg m e =>
      let b := Zpos (digits2_pos m) + e in
      let n0 := decimal_exponent 8 m e ((b - 1) * 30103 / 100000 - 1) in
      let '(s, j) := shortest 17 m e n0 1 in
      let '(s, j) := strip0 20 s j in
      let ds := digits10 s in
      (if sg then "-" else "") +:+ format ds (j + Z.of_nat (String.length ds))
  end.

(** ** Values *)

(** The values the wrapper handles: primitives, and objects with a
    [message] and a [notFatal] property (an [Error], tagged or not; a
    missing [notFatal] is [false]). *)
Inductive value : Type :=
| VUndefined
| VNull
| VBool (b : bool)
| VNum (n : number)
| VStr (s : string)
| VError (message : value) (notFatal : bool).

Definition truthy_number (n : number) : bool :=
  match n with
  | S754_zero _ | S754_nan => false
  | _ => true
  end.

Definition truthy (v : value) : bool :=
  match v with
  | VUndefined | VNull => false
  | VBool b => b
  | VNum n => truthy_number n
  | VStr s => negb (String.eqb s "")
  | VError _ _ => true
  end.

Fixpoint ToString (v : value) : string :=
  match v with
  | VUndefined => "undefined"
  | VNull => "null"
  | VBool b => if b then "true" else "false"
  | VNum n => Number_toString n
  | VStr s => s
  | VError m _ =>
      let msg := match m with VUndefined => "" | _ => ToString m end in
      if String.eqb msg "" then "Error" else "Error: " +:+ msg
  end.

Definition ToNumber (v : value) : number :=
  match v with
  | VUndefined => NaN
  | VNull => S754_zero false
  | VBool b => if b then ofZ 1 else S754_zero false
  | VNum n => n
  | VStr s => StringToNumber s
  | VError _ _ => NaN
  end.

Definition parseFloat (v : value) : number := parseFloat_string (ToString v).

(** [new Error(s)]. *)
Definition new_Error (s : string) : value := VError (VStr s) false.

(** [v.message] and [v.notFatal] read on a value; a primitive has
    neither. *)
Definition get_message (v : value) : value :=
  match v with
  | VError m _ => m
  | _ => VUndefined
  end.

Definition get_notFatal (v : value) : bool :=
  match v with
  | VError _ t => t
  | _ => false
  end.

(** [a == b] on two primitives. *)
Definition loose_eq_primitive (a b : value) : bool :=
  match a, b with
  | (VUndefined | VNull), (VUndefined | VNull) => true
  | (VUndefined | VNull), _ | _, (VUndefined | VNull) => false
  | VStr s, VStr t => String.eqb s t
  | _, _ => strict_eq (ToNumber a) (ToNumber b)
  end.

(** [a == b]: an object is compared with a primitive through its
    string; two objects are equal only when they are the same object,
    which two values of this model never are. *)
Definition loose_eq (a b : value) : bool :=
  match a, b with
  | VError _ _, VError _ _ => false
  | VError _ _, (VUndefined | VNull) | (VUndefined | VNull), VError _ _ => false
  | VError _ _, _ => loose_eq_primitive (VStr (ToString a)) b
  | _, VError _ _ => loose_eq_primitive a (VStr (ToString b))
  | _, _ => loose_eq_primitive a b
  end.

(** What a call can end in besides a return value. *)
Inductive exception : Type :=
| TypeError
| RangeError
| Thrown (v : value).

Inductive completion (A : Type) : Type :=
| Returns (a : A)
| Throws (e : exception)
| Diverges.

Arguments Returns {A} a.
Arguments Throws {A} e.
Arguments Diverges {A}.

(** ** Further operations of the language *)

Definition sub : number -> number -> number := SFsub prec emax.

(** [x >= y] and [x < y] on two numbers: false as soon as one of them is
    NaN. *)
Definition ge (x y : number) : bool := SFleb y x.
Definition less_than (x y : number) : bool := SFltb x y.

Definition upper (c : ascii) : ascii :=
  let n := N_of_ascii c in
  if (97 <=? n)%N && (n <=? 122)%N then ascii_of_N (n - 32) else c.

(** [s.toUpperCase()] (on ASCII letters). *)
Fixpoint toUpperCase (s : string) : string :=
  match s with
  | EmptyString => EmptyString
  | String c r => String (upper c) (toUpperCase r)
  end.

(** [a + b]: a concatenation of strings as soon as one operand is a
    string or an object (which converts to its string), a sum of numbers
    otherwise. *)
Definition plus (a b : value) : value :=
  match a, b with
  | (VStr _ | VError _ _), _ | _, (VStr _ | VError _ _) =>
      VStr (ToString a +:+ ToString b)
  | _, _ => VNum (add (ToNumber a) (ToNumber b))
  end.

(** [a - b]: always a difference of numbers. *)
Definition minus (a b : value) : value := VNum (sub (ToNumber a) (ToNumber b)).

(** [array.toString()] for an array of strings: its items joined by
    commas. *)
Definition Array_toString (items : list string) : string := String.concat "," items.

(** The characters with a meaning of their own in a pattern. *)
Definition is_syntax_character (c : ascii) : bool :=
  existsb (Ascii.eqb c) (list_ascii_of_string "^$\.*+?()[]{}|/").

(** [new RegExp(pattern)] for a pattern without syntax characters: the
    pattern matches itself, character for character. *)
Fixpoint literal (pattern : string) : regex :=
  match pattern with
  | EmptyString => Eps
  | String c r => Cat (Chr (Ascii.eqb c)) (literal r)
  end.

(** [moment(ms).unix()]: the seconds of a time in milliseconds, rounded
    down. *)
Definition moment_unix (ms : Z) : Z := ms / 1000.

(** [moment(ms).add(1, 'h').valueOf()]. *)
Definition moment_add_hour (ms : Z) : Z := ms + 3600000.

(** A literal of the source, written as its text. *)
Definition num (s : string) : number := StringToNumber s.

End JS.

(** * The wrapper: definitions *)

Module Binance.
Import JS.

(** The part of the adapter instance the modelled functions read. *)
Record Trader : Type := { asset : string; currency : string }.

Definition pair (this : Trader) : string := asset this +:+ currency this.

Definition recoverableErrors : list string :=
  [ "SOCKETTIMEDOUT";
    "TIMEDOUT";
    "CONNRESET";
    "CONNREFUSED";
    "NOTFOUND";
    "Error -1021";
    "Response code 429";
    "Response code 5";
    "ETIMEDOUT" ]%string.

(** [includes(str, list)]: [false] when [str] is not a string, otherwise
    whether some item of the list occurs in it. *)
Definition includes (str : value) (list : list string) : bool :=
  match str with
  | VStr s => existsb (fun item => String_includes s item) list
  | _ => false
  end.

(** The arguments a callback is called with: [callback(error)] or
    [callback(undefined, result)]. *)
Inductive callback_args (R : Type) : Type :=
| callback_error (error : value)
| callback_result (result : R).

Arguments callback_error {R} error.
Arguments callback_result {R} result.

(** A response body: the [code] and [msg] properties the handler reads
    ([VUndefined] when the body has none, as an array has), and the rest
    of the body. *)
Record Body (P : Type) : Type := { code : value; msg : value; payload : P }.

Arguments code {P} b.
Arguments msg {P} b.
Arguments payload {P} b.

(** The function [handleResponse(funcName, callback)] returns, applied
    to [(error, body)]; the body is [None] when it is [undefined] or
    [null].  On the last line [error] is falsy, so [processError]
    returns [undefined] at its first line and the callback receives
    [(undefined, body)]. *)
Definition handleResponse {P : Type} (error : value) (body : option (Body P))
  : callback_args (option (Body P)) :=
  let error :=
    match body with
    | Some b =>
        if truthy (code b)
        then new_Error ("Error " +:+ ToString (code b) +:+ ": " +:+ ToString (msg b))
        else error
    | None => error
    end in
  if truthy error then
    let error := match error with VStr s => new_Error s | _ => error end in
    let error :=
      if includes (get_message error) recoverableErrors
      then match error with
           | VError m _ => VError m true
           | _ => error
           end
      else error in
    callback_error error
  else callback_result body.

(** ** getPortfolio *)

Record balance : Type := { balance_asset : string; free : value }.

Record portfolio_entry : Type := { name : string; amount : number }.

(** [_.find(data.balances, item => item.asset === a)]. *)
Definition find_balance (a : string) (balances : list balance) : option balance :=
  List.find (fun item => String.eqb (balance_asset item) a) balances.

(** The completion [setBalance(err, data)] of [getPortfolio]; [balances]
    is [data.balances].  Reading [.free] of a missing entry is a
    TypeError, and so is the assignment to [assetAmount] or
    [currencyAmount], which are declared [const]. *)
Definition setBalance (this : Trader) (err : value) (balances : list balance)
  : completion (callback_args (list portfolio_entry)) :=
  if truthy err then Returns (callback_error err)
  else
    match find_balance (asset this) balances with
    | None => Throws TypeError
    | Some a =>
        let assetAmount := parseFloat (free a) in
        match find_balance (currency this) balances with
        | None => Throws TypeError
        | Some c =>
            let currencyAmount := parseFloat (free c) in
            if isNaN assetAmount then Throws TypeError
            else if isNaN currencyAmount then Throws TypeError
            else Returns (callback_result
                   [ {| name := asset this; amount := assetAmount |};
                     {| name := currency this; amount := currencyAmount |} ])
        end
    end.

(** ** Precision and rounding *)

(** The loop of [getPrecision], from the state [(e, p)]; [None] when
    [fuel] iterations do not leave it. *)
Fixpoint getPrecision_while (fuel : nat) (tickSize e : number) (p : nat) : option nat :=
  match fuel with
  | O => None
  | S fuel' =>
      if strict_neq (div (Math_round (mul tickSize e)) e) tickSize
      then getPrecision_while fuel' tickSize (mul e (ofZ 10)) (S p)
      else Some p
  end.

Definition getPrecision_fuel (fuel : nat) (tickSize : number) : option nat :=
  if negb (isFinite tickSize) then Some 0%nat
  else getPrecision_while fuel tickSize (ofZ 1) 0.

(** [getPrecision(tickSize)].  The loop leaves within 309 iterations or
    never ([getPrecision_fuel_enough] below), so [None] stands for a call
    that does not return. *)
Definition getPrecision (tickSize : number) : option nat :=
  getPrecision_fuel 310 tickSize.

(** The pattern [/\d+\.?\d*e[\+\-]*\d+/i]. *)
Definition scientific_pattern : regex :=
  Cat (Plus (Chr is_digit))
   (Cat (Opt (Chr (Ascii.eqb ".")))
    (Cat (Star (Chr is_digit))
     (Cat (Chr (fun c => Ascii.eqb (lower c) "e"))
      (Cat (Star (Chr (fun c => Ascii.eqb c "+" || Ascii.eqb c "-")))
           (Plus (Chr is_digit)))))).

(** [scientificToDecimal(num)] for a number [num].  In the branch of a
    positive exponent, a coefficient with a fraction reaches the
    assignment [l = l - dec.length] to the constant [l], which is a
    TypeError. *)
Definition scientificToDecimal (num : number) : completion string :=
  let str := Number_toString num in
  if regex_test scientific_pattern str then
    let parts := split "e" (toLowerCase str) in
    let e := List.last parts EmptyString in
    let parts := List.removelast parts in
    let l := Math_abs (StringToNumber e) in
    let sign := div (StringToNumber e) l in
    match parts with
    | [] => Throws TypeError
    | coeff :: _ =>
        let coeff_array := split "." coeff in
        if strict_eq sign (ofZ (-1)) then
          match Array_join_zero l with
          | Some z => Returns ("0" +:+ "." +:+ z +:+ join coeff_array)
          | None => Throws RangeError
          end
        else
          match coeff_array with
          | _ :: String _ _ :: _ => Throws TypeError
          | _ =>
              match Array_join_zero (add l (ofZ 1)) with
              | Some z => Returns (join coeff_array +:+ z)
              | None => Throws RangeError
              end
          end
    end
  else Returns str.

(** [round(amount, tickSize)].  [getPrecision] returns a count, so
    [Number.isInteger(t)] holds and the precision is [10^t]; the product
    converts [amount] to a number. *)
Definition round (amount : value) (tickSize : number) : completion string :=
  match getPrecision tickSize with
  | None => Diverges
  | Some t =>
      let precision := Math_pow10 t in
      let amount := mul (ToNumber amount) precision in
      let amount := Math_floor amount in
      let amount := div amount precision in
      scientificToDecimal amount
  end.

(** ** getOrder *)

(** One entry of the account's trade list. *)
Module trade.
Record t : Type :=
  { orderId : value;
    time : Z;
    price : value;
    qty : value;
    commission : value;
    commissionAsset : string }.
End trade.

(** What [getOrder] hands to its callback; [date] is the time the
    moment object wraps. *)
Module order.
Record t : Type :=
  { price : number;
    amount : number;
    date : Z;
    fees : gmap string number;
    feePercent : number }.
End order.



(** [fees[k]] read as a condition, for an [own_key]: missing, zero and
    NaN are falsy.  The map holds the own properties of [fees]; under a
    name of [Object_prototype_names] the code reads the inherited
    property instead, which this map does not hold: the keys the wrapper
    itself uses ([BNB], [currency], the upper-cased asset and currency)
    are own keys, and what is stated about the fee currencies of the
    fills is stated for own keys. *)
Definition fee_truthy (fees : gmap string number) (k : string) : bool :=
  match fees !! k with
  | Some f => truthy_number f
  | None => false
  end.

(** [fees[k]] read as an operand: [undefined] converts to NaN. *)
Definition fee_number (fees : gmap string number) (k : string) : number :=
  match fees !! k with
  | Some f => f
  | None => NaN
  end.

(** The body of [_.each(trades, trade => ...)] on the state
    [(price, amount, date, fees)]. *)
Definition each_trade (st : number * number * Z * gmap string number) (trade : trade.t)
  : number * number * Z * gmap string number :=
  let '(price, amount, date, fees) := st in
  let date := trade.time trade in
  let price :=
    div (add (mul price amount)
             (mul (ToNumber (trade.price trade)) (ToNumber (trade.qty trade))))
        (add (ToNumber (trade.qty trade)) amount) in
  let amount := add amount (ToNumber (trade.qty trade)) in
  let fees :=
    if fee_truthy fees (trade.commissionAsset trade)
    then <[trade.commissionAsset trade :=
             add (fee_number fees (trade.commissionAsset trade))
                 (ToNumber (trade.commission trade))]> fees
    else <[trade.commissionAsset trade := ToNumber (trade.commission trade)]> fees in
  (price, amount, date, fees).

Definition feePercent_of (this : Trader) (price amount : number)
  (fees : gmap string number) : number :=
  if Nat.eqb (size fees) 1 then
    if fee_truthy fees "BNB"
       && negb (String.eqb (asset this) "BNB")
       && negb (String.eqb (currency this) "BNB")
    then num "0.05"
    else if fee_truthy fees (asset this)
    then mul (div (fee_number fees (asset this)) amount) (num "100")
    else if fee_truthy fees "currency"
    then mul (div (div (fee_number fees (currency this)) price) amount) (num "100")
    else num "0.1"
  else num "0.1".

(** The completion [get(err, data)] of [getOrder(order, callback)]. *)
Definition getOrder (this : Trader) (order : value) (err : value) (data : list trade.t)
  : callback_args order.t :=
  if truthy err then callback_error err
  else
    let trades := List.filter (fun t => loose_eq (trade.orderId t) order) data in
    match trades with
    | [] => callback_error (new_Error "Trades not found")
    | _ =>
        let '(price, amount, date, fees) :=
          List.fold_left each_trade trades (ofZ 0, ofZ 0, 0, ∅) in
        callback_result
          {| order.price := price;
             order.amount := amount;
             order.date := date;
             order.fees := fees;
             order.feePercent := feePercent_of this price amount fees |}
    end.

(** ** checkOrder *)

Record order_data : Type := { status : value; executedQty : value }.

Record order_state : Type :=
  { executed : bool; open : bool; filledAmount : option number }.

Definition is_status (status : value) (s : string) : bool :=
  match status with
  | VStr t => String.eqb t s
  | _ => false
  end.

(** The completion [check(err, data)] of [checkOrder]; a status that is
    none of the six is thrown. *)
Definition checkOrder (err : value) (data : order_data)
  : completion (callback_args order_state) :=
  if truthy err then Returns (callback_error err)
  else
    let status := status data in
    if is_status status "CANCELED" || is_status status "REJECTED"
       || is_status status "EXPIRED"
    then Returns (callback_result
           {| executed := false; open := false; filledAmount := None |})
    else if is_status status "NEW" || is_status status "PARTIALLY_FILLED"
    then Returns (callback_result
           {| executed := false; open := true;
              filledAmount := Some (ToNumber (executedQty data)) |})
    else if is_status status "FILLED"
    then Returns (callback_result
           {| executed := true; open := false; filledAmount := None |})
    else Throws (Thrown status).

(** ** cancelOrder *)

(** The request [cancelOrder(order, callback)] sends. *)
Record cancel_request : Type := { symbol : string; request_orderId : value }.

Definition cancelOrder_reqData (this : Trader) (order : value) : cancel_request :=
  {| symbol := pair this; request_orderId := order |}.

(** The completion [cancel(err, data)] of [cancelOrder(order, callback)]:
    [true] when the order was already filled, [false] when it was
    cancelled.  [err.message.includes] is a TypeError when the message
    is not a string. *)
Definition cancelOrder {D : Type} (this : Trader) (order : value) (err : value) (data : D)
  : completion (callback_args bool) :=
  if truthy err then
    match get_message err with
    | VStr m =>
        if String_includes m "UNKNOWN_ORDER" then Returns (callback_result true)
        else Returns (callback_error err)
    | _ => Throws TypeError
    end
  else Returns (callback_result false).

(** ** The constructor *)

(** The properties of an object [config] the constructor reads besides
    the credentials. *)
Record Config : Type := { config_asset : string; config_currency : string }.

(** One entry of the market table ([binance-markets.json], through
    [getCapabilities().markets]): the pair as [[currency, asset]] and the
    minimal order sizes. *)
Module market.
Record minimalOrder : Type := { amount : number; price : number; order : number }.
Record t : Type := { pair : string * string; minimal : minimalOrder }.
End market.

(** The instance [new Trader(config)] sets up for an object [config]. *)
Definition new_Trader (config : Config) : Trader :=
  {| asset := toUpperCase (config_asset config);
     currency := toUpperCase (config_currency config) |}.

(** [this.market]: the first entry of the table for the pair of the
    instance, [None] ([undefined]) when there is none. *)
Definition find_market (markets : list market.t) (this : Trader) : option market.t :=
  List.find (fun m => String.eqb (fst (market.pair m)) (currency this)
                      && String.eqb (snd (market.pair m)) (asset this)) markets.

(** ** processError *)

Section ProcessError.

(** The two error classes of [../exchangeErrors], by their
    constructors. *)
Variable E : Type.
Variables AbortError RetryError : string -> E.

(** [processError(funcName, error)]; [None] is [undefined].  The
    argument of [match] is the array of signatures, which [match] turns
    into the pattern of the array's string; that string holds no syntax
    character, so the pattern is a literal.  [+] binds tighter than [||],
    so the text of the error is always the concatenation.  A message that
    is truthy and not a string has no [match] method. *)
Definition processError (error : value) : completion (option E) :=
  if negb (truthy error) then Returns None
  else
    let message := get_message error in
    let text := "[binance.js] " +:+ ToString message in
    if negb (truthy message) then Returns (Some (AbortError text))
    else
      match message with
      | VStr m =>
          if negb (regex_test (literal (Array_toString recoverableErrors)) m)
          then Returns (Some (AbortError text))
          else Returns (Some (RetryError text))
      | _ => Throws TypeError
      end.

End ProcessError.

Arguments processError {E} AbortError RetryError error.

(** ** getTrades *)

(** One entry of the aggregated trade list. *)
Module aggTrade.
Record t : Type :=
  { aggTradeId : value; timestamp : Z; price : value; quantity : value }.
End aggTrade.

(** One trade as [getTrades] hands it on. *)
Module parsedTrade.
Record t : Type := { tid : value; date : Z; price : number; amount : number }.
End parsedTrade.

Definition parse_trade (trade : aggTrade.t) : parsedTrade.t :=
  {| parsedTrade.tid := aggTrade.aggTradeId trade;
     parsedTrade.date := moment_unix (aggTrade.timestamp trade);
     parsedTrade.price := parseFloat (aggTrade.price trade);
     parsedTrade.amount := parseFloat (aggTrade.quantity trade) |}.

(** The completion [processResults(err, data)] of
    [getTrades(since, callback, descending)]: each trade is pushed on
    [parsedTrades], which is reversed when [descending] is truthy. *)
Definition processResults (descending : value) (err : value) (data : list aggTrade.t)
  : callback_args (list parsedTrade.t) :=
  if truthy err then callback_error err
  else
    let parsedTrades :=
      List.fold_left (fun parsedTrades trade => parsedTrades ++ [parse_trade trade])
                     data [] in
    if truthy descending then callback_result (List.rev parsedTrades)
    else callback_result parsedTrades.

(** The request of [getTrades]; [since] is the time of the moment passed
    in ([None] when it is not given) and [now] the time of the call, both
    in milliseconds. *)
Record trades_request : Type :=
  { trades_symbol : string; startTime : option Z; endTime : option Z }.

Definition getTrades_reqData (this : Trader) (since : option Z) (now : Z)
  : trades_request :=
  match since with
  | Some since =>
      let endTs := moment_add_hour since in
      let nowTs := now in
      {| trades_symbol := pair this;
         startTime := Some since;
         endTime := Some (if nowTs <? endTs then nowTs else endTs) |}
  | None => {| trades_symbol := pair this; startTime := None; endTime := None |}
  end.

(** ** getFee *)

Definition getFee : callback_args number :=
  let makerFee := num "0.1" in
  callback_result (div makerFee (num "100")).

(** ** getTicker *)

(** One entry of the book ticker list. *)
Module ticker.
Record t : Type := { symbol : string; askPrice : value; bidPrice : value }.
End ticker.

Record ticker_result : Type := { ask : number; bid : number }.

(** The completion [setTicker(err, data)] of [getTicker]. *)
Definition setTicker (this : Trader) (err : value) (data : list ticker.t)
  : callback_args ticker_result :=
  if truthy err then callback_error err
  else
    match List.find (fun ticker => String.eqb (ticker.symbol ticker) (pair this)) data with
    | None => callback_error (new_Error ("Market " +:+ pair this +:+ " not found on Binance"))
    | Some result =>
        callback_result
          {| ask := parseFloat (ticker.askPrice result);
             bid := parseFloat (ticker.bidPrice result) |}
    end.

(** ** Rounding and validity against the market

    These read [this.market.minimalOrder]; [this_market] is [None] when
    the constructor found no market, and reading a property of
    [undefined] is a TypeError. *)

Definition roundAmount (this_market : option market.t) (amount : value)
  : completion string :=
  match this_market with
  | None => Throws TypeError
  | Some m => round amount (market.amount (market.minimal m))
  end.

Definition roundPrice (this_market : option market.t) (price : value)
  : completion string :=
  match this_market with
  | None => Throws TypeError
  | Some m => round price (market.price (market.minimal m))
  end.

Definition isValidPrice (this_market : option market.t) (price : value)
  : completion bool :=
  match this_market with
  | None => Throws TypeError
  | Some m => Returns (ge (ToNumber price) (market.price (market.minimal m)))
  end.

Definition isValidLot (this_market : option market.t) (price amount : value)
  : completion bool :=
  match this_market with
  | None => Throws TypeError
  | Some m =>
      Returns (ge (mul (ToNumber amount) (ToNumber price))
                  (market.order (market.minimal m)))
  end.

Definition outbidPrice (this_market : option market.t) (price isUp : value)
  : completion string :=
  match this_market with
  | None => Throws TypeError
  | Some m =>
      let newPrice :=
        if truthy isUp then plus price (VNum (market.price (market.minimal m)))
        else minus price (VNum (market.price (market.minimal m))) in
      roundPrice this_market newPrice
  end.

(** ** addOrder, buy and sell *)

Record order_request : Type :=
  { order_symbol : string;
    side : string;
    order_type : string;
    timeInForce : string;
    quantity : value;
    order_price : value;
    order_timestamp : Z }.

(** The request of [addOrder(tradeType, amount, price, callback)] at the
    time [now]. *)
Definition addOrder_reqData (this : Trader) (tradeType : string) (amount price : value)
  (now : Z) : order_request :=
  {| order_symbol := pair this;
     side := toUpperCase tradeType;
     order_type := "LIMIT";
     timeInForce := "GTC";
     quantity := amount;
     order_price := price;
     order_timestamp := now |}.

(** The completion [setOrder(err, data)] of [addOrder]; [orderId] is
    [data.orderId]. *)
Definition setOrder (err : value) (orderId : value) : callback_args value :=
  if truthy err then callback_error err
  else let txid := orderId in callback_result txid.

Definition buy_reqData (this : Trader) (amount price : value) (now : Z) : order_request :=
  addOrder_reqData this "buy" amount price now.

Definition sell_reqData (this : Trader) (amount price : value) (now : Z) : order_request :=
  addOrder_reqData this "sell" amount price now.

End Binance.

(** * Vocabulary of the statements *)

Import JS Binance.

(** [t] occurs in [s]: character for character, so the match is
    case-sensitive. *)
Definition occurs_in (t s : string) : Prop :=
  exists l r : string, s = l +:+ t +:+ r.

(** The message of [v] carries one of the transient signatures. *)
Definition has_signature (v : value) : Prop :=
  exists m sig, get_message v = VStr m /\ In sig recoverableErrors /\ occurs_in sig m.

(** [c] is one of the characters of [s]. *)
Fixpoint char_in (c : ascii) (s : string) : Prop :=
  match s with
  | EmptyString => False
  | String d r => c = d \/ char_in c r
  end.

Definition no_exponent_marker (s : string) : Prop :=
  ~ char_in "e" s /\ ~ char_in "E" s.








(** A fill of order 7 of one unit at price [p], with a commission of 0.1
    paid in the currency X. *)
Definition fill_X (p : string) : trade.t :=
  {| trade.orderId := VNum (num "7"); trade.time := 0;
     trade.price := VNum (num p); trade.qty := VNum (num "1");
     trade.commission := VNum (num "0.1"); trade.commissionAsset := "X" |}.




(** The mantissa of a finite number has at most 53 bits. *)
Definition mantissa_fits (x : number) : Prop :=
  match x with
  | S754_finite _ m _ => Zpos m < 2 ^ 53
  | _ => True
  end.



(** A value that is a string. *)
Definition is_string (v : value) : bool :=
  match v with
  | VStr _ => true
  | _ => false
  end.

(** A response body whose [code] is falsy, or no body at all. *)
Definition falsy_code {P : Type} (body : option (Body P)) : Prop :=
  match body with
  | Some b => truthy (code b) = false
  | None => True
  end.

(** A finite number above zero. *)
Definition positive_finite (x : number) : bool :=
  match x with
  | S754_finite false _ _ => true
  | _ => false
  end.

(** A string of decimal digits. *)
Definition digit_string (s : string) : Prop :=
  forall c, char_in c s -> is_digit c = true.

(** A string of decimal digits and minus signs: what precedes the point
    in the coefficient of a number in exponent notation. *)
Definition sign_or_digit (s : string) : Prop :=
  forall c, char_in c s -> is_digit c = true \/ c = "-"%char.

(** The characters of a coefficient: digits, a point, a minus sign. *)
Definition coefficient_chars (s : string) : Prop :=
  forall c, char_in c s -> is_digit c = true \/ c = "."%char \/ c = "-"%char.

(** The order of two finite numbers of the same sign, as the
    lexicographic order of exponent and mantissa. *)
Definition lex_compare (e1 : Z) (m1 : positive) (e2 : Z) (m2 : positive) : comparison :=
  match Z.compare e1 e2 with
  | Lt => Lt
  | Gt => Gt
  | Eq => Pos.compare_cont Eq m1 m2
  end.

(** * Facts about the ECMAScript fragment *)

(** ** Strings *)

Lemma prefix_occurs (t s : string) :
  String.prefix t s = true <-> exists r, s = t +:+ r.
Proof.
  revert s. induction t as [|c t IH]; intros s.
  - split; [intros _; now exists s | intros _; now destruct s].
  - destruct s as [|d s]; simpl; [split; [discriminate | intros [r Hr]; discriminate]|].
    destruct (ascii_dec c d) as [->|Hne].
    + rewrite IH. split; intros [r Hr]; exists r; [now rewrite Hr | now injection Hr].
    + split; [discriminate | intros [r Hr]; injection Hr; congruence].
Qed.

Lemma String_includes_unfold (s t : string) :
  String_includes s t =
  String.prefix t s
  || match s with
     | EmptyString => false
     | String _ s' => String_includes s' t
     end.
Proof. destruct s; unfold String_includes; fold String_includes; now destruct String.prefix. Qed.

Lemma String_includes_occurs (s t : string) :
  String_includes s t = true <-> occurs_in t s.
Proof.
  induction s as [|c s IH]; rewrite String_includes_unfold, orb_true_iff, prefix_occurs.
  - split.
    + intros [[r Hr]|H]; [now exists ""%string, r | discriminate].
    + intros (l & r & H). left. destruct l; [now exists r | discriminate].
  - rewrite IH. split.
    + intros [[r Hr]|(l & r & ->)]; [now exists ""%string, r | now exists (String c l), r].
    + intros (l & r & H). destruct l as [|d l].
      * left. now exists r.
      * right. injection H as _ ->. now exists l, r.
Qed.

Lemma includes_signature (v : value) :
  includes (get_message v) recoverableErrors = true <-> has_signature v.
Proof.
  unfold includes, has_signature. destruct (get_message v) as [| | | |m|] eqn:Hm;
    try (split; [discriminate | intros (m' & sig & H & _); discriminate]).
  rewrite existsb_exists. split.
  - intros (sig & Hin & Hs). exists m, sig. now rewrite <- String_includes_occurs.
  - intros (m' & sig & [= <-] & Hin & Ho). exists sig. now rewrite String_includes_occurs.
Qed.

(** ** Characters of strings *)

Lemma char_in_app (c : ascii) (s1 s2 : string) :
  char_in c (s1 +:+ s2) <-> char_in c s1 \/ char_in c s2.
Proof. induction s1 as [|d s1 IH]; simpl; [tauto | rewrite IH; tauto]. Qed.

Lemma char_in_zeros (c : ascii) (n : nat) : char_in c (zeros n) -> c = "0"%char.
Proof. induction n as [|n IH]; simpl; [tauto | intros [H|H]; auto]. Qed.

Lemma char_in_take (c : ascii) (n : nat) (s : string) : char_in c (take n s) -> char_in c s.
Proof.
  revert s. induction n as [|n IH]; intros [|d s]; simpl; try tauto.
  intros [H|H]; [now left | right; now apply IH].
Qed.

Lemma char_in_drop (c : ascii) (n : nat) (s : string) : char_in c (drop n s) -> char_in c s.
Proof.
  revert s. induction n as [|n IH]; intros [|d s]; simpl; try tauto.
  intros H. right. now apply IH.
Qed.

Lemma take_drop (n : nat) (s : string) : take n s +:+ drop n s = s.
Proof.
  revert s. induction n as [|n IH]; intros [|d s]; simpl; try reflexivity.
  change (String d (take n s +:+ drop n s) = String d s). f_equal. apply IH.
Qed.

Lemma char_in_join (c : ascii) (parts : list string) :
  char_in c (join parts) -> exists p, In p parts /\ char_in c p.
Proof.
  unfold join. induction parts as [|p [|q parts] IH]; cbn [String.concat].
  - intros [].
  - intros H. exists p. split; [now left | exact H].
  - rewrite !char_in_app. intros [H|[[]|H]].
    + exists p. split; [now left | exact H].
    + destruct (IH H) as (p' & Hin & Hc). exists p'. split; [now right | exact Hc].
Qed.

(** Every piece of a split is made of characters of the string, none of
    them the separator. *)
Lemma split_pieces (sep c : ascii) (s p : string) :
  In p (split sep s) -> char_in c p -> char_in c s /\ c <> sep.
Proof.
  revert p. induction s as [|d s IH]; intros p; simpl.
  - intros [<-|[]] [].
  - destruct (Ascii.eqb_spec d sep) as [->|Hne].
    + intros [<-|Hin] Hc; [destruct Hc|].
      destruct (IH p Hin Hc). split; [now right | assumption].
    + destruct (split sep s) as [|q qs] eqn:Hs.
      * intros [<-|[]] [->|[]]. split; [now left | assumption].
      * intros [<-|Hin] Hc.
        -- destruct Hc as [->|Hc]; [split; [now left | assumption]|].
           destruct (IH q (or_introl eq_refl) Hc). split; [now right | assumption].
        -- destruct (IH p (or_intror Hin) Hc). split; [now right | assumption].
Qed.

Lemma split_nonempty (sep : ascii) (s : string) : split sep s <> [].
Proof.
  destruct s as [|d s]; simpl; [discriminate|].
  destruct (Ascii.eqb d sep); [discriminate|]. now destruct (split sep s).
Qed.

Lemma lower_not_E (c : ascii) : lower c <> "E"%char.
Proof. destruct c as [[] [] [] [] [] [] [] []]; vm_compute; discriminate. Qed.

Lemma char_in_toLowerCase (c : ascii) (s : string) :
  char_in c (toLowerCase s) -> c <> "E"%char.
Proof.
  induction s as [|d s IH]; simpl; [tauto|].
  intros [->|H]; [apply lower_not_E | now apply IH].
Qed.

Lemma In_removelast {A : Type} (x : A) (l : list A) : In x (removelast l) -> In x l.
Proof.
  induction l as [|a [|b l] IH]; simpl; tauto.
Qed.

(** ** The matcher *)

Lemma regex_full_Void (s : string) : regex_full Void s = false.
Proof. induction s as [|c s IH]; [reflexivity | exact IH]. Qed.

Lemma regex_full_Alt (r1 r2 : regex) (s : string) :
  regex_full (Alt r1 r2) s = regex_full r1 s || regex_full r2 s.
Proof. revert r1 r2. induction s as [|c s IH]; intros r1 r2; [reflexivity | apply IH]. Qed.

Lemma regex_full_Cat_nullable (r1 r2 : regex) (s : string) :
  nullable r1 = true -> regex_full r2 s = true -> regex_full (Cat r1 r2) s = true.
Proof.
  intros Hn H. destruct s as [|c s]; simpl in *.
  - now rewrite Hn, H.
  - rewrite Hn, regex_full_Alt, H. apply orb_true_r.
Qed.

Lemma regex_full_Cat (r1 r2 : regex) (s1 s2 : string) :
  regex_full r1 s1 = true -> regex_full r2 s2 = true ->
  regex_full (Cat r1 r2) (s1 +:+ s2) = true.
Proof.
  revert r1. induction s1 as [|c s1 IH]; intros r1 H1 H2.
  - now apply regex_full_Cat_nullable.
  - change (regex_full (deriv c (Cat r1 r2)) (s1 +:+ s2) = true). simpl in *.
    destruct (nullable r1).
    + rewrite regex_full_Alt, IH; auto.
    + auto.
Qed.

Lemma regex_full_Star_cons (r : regex) (c : ascii) (s1 s2 : string) :
  regex_full r (String c s1) = true -> regex_full (Star r) s2 = true ->
  regex_full (Star r) (String c s1 +:+ s2) = true.
Proof.
  intros H1 H2. change (regex_full (Cat (deriv c r) (Star r)) (s1 +:+ s2) = true).
  now apply regex_full_Cat.
Qed.

Lemma regex_full_Chr (p : ascii -> bool) (c : ascii) :
  p c = true -> regex_full (Chr p) (String c "") = true.
Proof. intros H. simpl. now rewrite H. Qed.

(** All the characters of [s] satisfy [p]. *)
Lemma regex_full_Star_Chr (p : ascii -> bool) (s : string) :
  (forall c, char_in c s -> p c = true) -> regex_full (Star (Chr p)) s = true.
Proof.
  induction s as [|c s IH]; intros H; [reflexivity|].
  change (String c s) with (String c "" +:+ s).
  apply regex_full_Star_cons.
  - apply regex_full_Chr, H. now left.
  - apply IH. intros d Hd. apply H. now right.
Qed.

Lemma regex_full_Plus_Chr (p : ascii -> bool) (s : string) :
  s <> ""%string -> (forall c, char_in c s -> p c = true) ->
  regex_full (Plus (Chr p)) s = true.
Proof.
  destruct s as [|c s]; [congruence|]. intros _ H.
  change (String c s) with (String c "" +:+ s). apply regex_full_Cat.
  - apply regex_full_Chr, H. now left.
  - apply regex_full_Star_Chr. intros d Hd. apply H. now right.
Qed.

Lemma regex_test_intro (r : regex) (pre mid post : string) :
  regex_full r mid = true -> regex_test r (pre +:+ mid +:+ post) = true.
Proof.
  intros H. unfold regex_test. apply regex_full_Cat.
  - now apply regex_full_Star_Chr.
  - apply regex_full_Cat; [exact H | now apply regex_full_Star_Chr].
Qed.

(** ** Numbers and strings on some values *)

Example Number_toString_values :
  map (fun s => Number_toString (num s))
    [ "0.1"; "1.15"; "100"; "0.000001"; "0.0000001"; "1.5e-7"; "123456789012345680000";
      "1e21"; "1.5e21"; "-2.5"; "5e-324"; "1.7976931348623157e308";
      "0.30000000000000004"; "9007199254740993"; "1e400"; "-0" ]%string
  = [ "0.1"; "1.15"; "100"; "0.000001"; "1e-7"; "1.5e-7"; "123456789012345680000";
      "1e+21"; "1.5e+21"; "-2.5"; "5e-324"; "1.7976931348623157e+308";
      "0.30000000000000004"; "9007199254740992"; "Infinity"; "0" ]%string.
Proof. vm_compute. reflexivity. Qed.

Example StringToNumber_values :
  map StringToNumber [ " 12 "; ""; "0x1F"; "1e"; "12abc"; "-Infinity"; ".5"; "5." ]%string
  = [ ofZ 12; ofZ 0; ofZ 31; NaN; NaN; S754_infinity true; num "0.5"; ofZ 5 ].
Proof. vm_compute. reflexivity. Qed.

Example parseFloat_values :
  map parseFloat [ VStr "12.5abc"; VStr "  -3e2x"; VStr "1e"; VStr ""; VStr "abc";
                   VUndefined; VNum (num "0.001") ]
  = [ num "12.5"; num "-300"; ofZ 1; NaN; NaN; NaN; num "0.001" ].
Proof. vm_compute. reflexivity. Qed.

Example arithmetic_values :
  add (num "0.1") (num "0.2") = num "0.30000000000000004"
  /\ mul (num "1.15") (num "100") = num "114.99999999999999"
  /\ div (ofZ 1) (ofZ 3) = num "0.3333333333333333"
  /\ map Math_round [ num "0.5"; num "2.5"; num "-2.5"; num "0.49999999999999994" ]
     = [ ofZ 1; ofZ 3; ofZ (-2); ofZ 0 ]
  /\ map Math_floor [ num "1.5"; num "-1.5"; num "0.5"; num "1e300" ]
     = [ ofZ 1; ofZ (-2); ofZ 0; num "1e300" ].
Proof. repeat split; vm_compute; reflexivity. Qed.

(** ** Numbers: addition *)

Lemma add_comm (x y : number) : add x y = add y x.
Proof.
  destruct x as [[]|[]| |sx mx ex], y as [[]|[]| |sy my ey]; try reflexivity.
  unfold add, SFadd. now rewrite Z.min_comm, Z.add_comm.
Qed.

Lemma shr_1_nonneg (mrs : shr_record) : 0 <= shr_m mrs -> 0 <= shr_m (shr_1 mrs).
Proof.
  destruct mrs as [m r s]. simpl. destruct m as [|[p|p|]|[p|p|]]; simpl; lia.
Qed.

Lemma iter_pos_shr_1_nonneg (p : positive) (mrs : shr_record) :
  0 <= shr_m mrs -> 0 <= shr_m (SpecFloat.iter_pos shr_1 p mrs).
Proof.
  revert mrs. induction p as [p IH|p IH|]; intros mrs H; simpl.
  - apply IH, IH, shr_1_nonneg, H.
  - apply IH, IH, H.
  - apply shr_1_nonneg, H.
Qed.

Lemma shr_fexp_nonneg (m e : Z) (l : location) :
  0 <= m -> 0 <= shr_m (fst (shr_fexp prec emax m e l)).
Proof.
  intros Hm. unfold shr_fexp, shr.
  assert (H0 : 0 <= shr_m (shr_record_of_loc m l)) by (destruct l as [|[]]; exact Hm).
  destruct (_ - e) as [|p|p]; simpl; try exact H0.
  now apply iter_pos_shr_1_nonneg.
Qed.





(** ** Numbers: Math.floor *)

Lemma digits2_pos_bounds (p : positive) :
  2 ^ (Zpos (digits2_pos p) - 1) <= Zpos p < 2 ^ Zpos (digits2_pos p).
Proof.
  induction p as [p IH|p IH|]; cbn [digits2_pos]; [| |simpl; lia].
  - rewrite Pos2Z.inj_succ, Z.pow_succ_r by lia.
    replace (Z.succ (Zpos (digits2_pos p)) - 1) with (Z.succ (Zpos (digits2_pos p) - 1)) by lia.
    rewrite Z.pow_succ_r by lia. lia.
  - rewrite Pos2Z.inj_succ, Z.pow_succ_r by lia.
    replace (Z.succ (Zpos (digits2_pos p)) - 1) with (Z.succ (Zpos (digits2_pos p) - 1)) by lia.
    rewrite Z.pow_succ_r by lia. lia.
Qed.

Lemma digits2_pos_le (p : positive) (n : Z) :
  0 <= n -> Zpos p < 2 ^ n -> Zpos (digits2_pos p) <= n.
Proof.
  intros Hn Hp. destruct (Z_le_gt_dec (Zpos (digits2_pos p)) n) as [H|H]; [exact H|].
  pose proof (digits2_pos_bounds p) as [Hl _].
  assert (2 ^ n <= 2 ^ (Zpos (digits2_pos p) - 1)) by (apply Z.pow_le_mono_r; lia).
  lia.
Qed.





Lemma shr_1_div2 (mrs : shr_record) :
  0 <= shr_m mrs -> shr_m (shr_1 mrs) = shr_m mrs / 2.
Proof.
  destruct mrs as [m r s]. cbn [shr_m]. intros Hm.
  destruct m as [|[p|p|]|p]; cbn [shr_1 shr_m]; try lia; try reflexivity.
  - rewrite Pos2Z.inj_xI. apply Z.div_unique with 1; lia.
  - rewrite Pos2Z.inj_xO. apply Z.div_unique with 0; lia.
Qed.

Lemma pow2_xO (p : positive) : 2 ^ Zpos p~0 = 2 ^ Zpos p * 2 ^ Zpos p.
Proof. rewrite <- Z.pow_add_r by lia. f_equal. lia. Qed.

Lemma pow2_xI (p : positive) : 2 ^ Zpos p~1 = 2 * (2 ^ Zpos p * 2 ^ Zpos p).
Proof.
  rewrite <- Z.pow_add_r, <- Z.pow_succ_r by lia. f_equal. lia.
Qed.

Lemma iter_pos_shr_1_div (p : positive) (mrs : shr_record) :
  0 <= shr_m mrs ->
  shr_m (SpecFloat.iter_pos shr_1 p mrs) = shr_m mrs / 2 ^ Zpos p.
Proof.
  revert mrs. induction p as [p IH|p IH|]; intros mrs Hm; cbn [SpecFloat.iter_pos].
  - pose proof (shr_1_nonneg mrs Hm) as H1.
    pose proof (iter_pos_shr_1_nonneg p _ H1) as H2.
    assert (HP : 0 < 2 ^ Zpos p) by (apply Z.pow_pos_nonneg; lia).
    rewrite IH, IH, shr_1_div2 by assumption.
    rewrite !Z.div_div by lia. now rewrite pow2_xI.
  - pose proof (iter_pos_shr_1_nonneg p _ Hm) as H2.
    assert (HP : 0 < 2 ^ Zpos p) by (apply Z.pow_pos_nonneg; lia).
    rewrite IH, IH by assumption. rewrite Z.div_div by lia. now rewrite pow2_xO.
  - rewrite shr_1_div2 by assumption. reflexivity.
Qed.

Lemma Zdigits2_bound (m : Z) : 0 <= m -> m < 2 ^ Zdigits2 m.
Proof.
  destruct m as [|p|p]; [reflexivity | | lia]. intros _. apply digits2_pos_bounds.
Qed.

(** Whatever is shifted, what [shr_fexp] leaves fits the mantissa. *)
Lemma shr_fexp_fits (m e : Z) (l : location) :
  0 <= m -> shr_m (fst (shr_fexp prec emax m e l)) < 2 ^ 53.
Proof.
  intros Hm. unfold shr_fexp, shr.
  assert (H0 : shr_m (shr_record_of_loc m l) = m) by (now destruct l as [|[]]).
  pose proof (Zdigits2_bound m Hm) as Hd.
  assert (Hdn : 0 <= Zdigits2 m) by (destruct m; simpl; lia).
  destruct (fexp prec emax (Zdigits2 m + e) - e) as [|p|p] eqn:Hn; cbn [fst].
  - rewrite H0. unfold fexp, emin, prec, emax in Hn.
    assert (2 ^ Zdigits2 m <= 2 ^ 53) by (apply Z.pow_le_mono_r; lia). lia.
  - rewrite iter_pos_shr_1_div, H0 by (rewrite H0; exact Hm).
    unfold fexp, emin, prec, emax in Hn.
    apply Z.div_lt_upper_bound; [lia|]. rewrite <- Z.pow_add_r by lia.
    assert (2 ^ Zdigits2 m <= 2 ^ (Zpos p + 53)) by (apply Z.pow_le_mono_r; lia). lia.
  - rewrite H0. unfold fexp, emin, prec, emax in Hn.
    assert (2 ^ Zdigits2 m <= 2 ^ 53) by (apply Z.pow_le_mono_r; lia). lia.
Qed.

Lemma binary_round_aux_fits (s : bool) (m e : Z) (l : location) :
  0 <= m -> mantissa_fits (binary_round_aux prec emax s m e l).
Proof.
  intros Hm. unfold binary_round_aux.
  pose proof (shr_fexp_nonneg m e l Hm) as H1.
  destruct (shr_fexp prec emax m e l) as [mrs' e'].
  set (m' := round_nearest_even _ _).
  assert (Hm' : 0 <= m').
  { subst m'. simpl in H1. unfold round_nearest_even.
    destruct (loc_of_shr_record mrs') as [|[]]; try lia.
    destruct (Z.even _); lia. }
  pose proof (shr_fexp_fits m' e' loc_Exact Hm') as H2.
  destruct (shr_fexp prec emax m' e' loc_Exact) as [mrs'' e''].
  cbn [fst] in H2. destruct (shr_m mrs'') as [|q|q]; try exact I.
  now destruct (_ <=? _).
Qed.

Lemma mul_fits (x y : number) : mantissa_fits (mul x y).
Proof.
  destruct x as [sx|sx| |sx mx ex], y as [sy|sy| |sy my ey]; try exact I.
  apply binary_round_aux_fits. lia.
Qed.



(** ** The shape of a number's string *)

Lemma string_app_nil_r (s : string) : s +:+ "" = s.
Proof.
  induction s as [|c s IH]; [reflexivity|].
  change (String c (s +:+ "") = String c s). now rewrite IH.
Qed.

Lemma NilEmpty_digits (u : Decimal.uint) (c : ascii) :
  char_in c (NilEmpty.string_of_uint u) -> is_digit c = true.
Proof.
  induction u as [|u IH|u IH|u IH|u IH|u IH|u IH|u IH|u IH|u IH|u IH]; simpl;
    try tauto; (intros [->|H]; [reflexivity | now apply IH]).
Qed.

Lemma digits10_digits (z : Z) (c : ascii) : char_in c (digits10 z) -> is_digit c = true.
Proof.
  unfold digits10, NilZero.string_of_uint. destruct (N.to_uint (Z.to_N z)) eqn:Hu;
    try (rewrite <- Hu; apply NilEmpty_digits).
  simpl. intros [->|[]]. reflexivity.
Qed.

Lemma digits10_nonempty (z : Z) : digits10 z <> ""%string.
Proof.
  unfold digits10, NilZero.string_of_uint. now destruct (N.to_uint (Z.to_N z)).
Qed.

Lemma is_digit_not_marker (c : ascii) :
  is_digit c = true \/ c = "."%char \/ c = "-"%char -> c <> "e"%char /\ c <> "E"%char.
Proof.
  intros [H | [-> | ->]]; split; intros E; try discriminate E; subst c; discriminate H.
Qed.

(** The layout of a digit string is plain (digits and a point) or
    matches the pattern of [scientificToDecimal], whatever precedes it. *)
Lemma format_shape (ds : string) (n : Z) (pre : string) :
  ds <> ""%string -> (forall c, char_in c ds -> is_digit c = true) ->
  (forall c, char_in c (format ds n) -> is_digit c = true \/ c = "."%char)
  \/ regex_test scientific_pattern (pre +:+ format ds n) = true.
Proof.
  intros Hne Hd. unfold format.
  destruct (_ && _).
  { left. intros c Hc. apply char_in_app in Hc as [Hc|Hc]; [left; now apply Hd|].
    apply char_in_zeros in Hc as ->. now left. }
  destruct (_ && _).
  { left. intros c Hc. apply char_in_app in Hc as [Hc|Hc].
    - left. eapply Hd, char_in_take, Hc.
    - destruct Hc as [->|Hc]; [now right|]. left. eapply Hd, char_in_drop, Hc. }
  destruct (_ && _).
  { left. intros c Hc. apply char_in_app in Hc as [Hc|Hc].
    - destruct Hc as [->|[->|[]]]; [now left | now right].
    - apply char_in_app in Hc as [Hc|Hc]; [|left; now apply Hd].
      apply char_in_zeros in Hc as ->. now left. }
  right.
  set (es := (_ +:+ digits10 _)%string).
  assert (Hes : regex_full
                  (Cat (Star (Chr (fun c => Ascii.eqb c "+" || Ascii.eqb c "-")))
                       (Plus (Chr is_digit))) es = true).
  { subst es. apply regex_full_Cat.
    - now destruct (0 <=? n - 1).
    - apply regex_full_Plus_Chr; [apply digits10_nonempty | apply digits10_digits]. }
  assert (He : regex_full
                 (Cat (Chr (fun c => Ascii.eqb (lower c) "e"))
                    (Cat (Star (Chr (fun c => Ascii.eqb c "+" || Ascii.eqb c "-")))
                         (Plus (Chr is_digit)))) ("e" +:+ es) = true).
  { now apply (regex_full_Cat _ _ "e" es). }
  destruct (_ =? 1).
  - rewrite <- (string_app_nil_r (ds +:+ _)). apply regex_test_intro.
    apply regex_full_Cat; [now apply regex_full_Plus_Chr|].
    apply (regex_full_Cat _ _ "" ("e" +:+ es)); [reflexivity|].
    now apply (regex_full_Cat _ _ "" ("e" +:+ es)).
  - rewrite <- (string_app_nil_r (take 1 ds +:+ _)). apply regex_test_intro.
    apply regex_full_Cat.
    { apply regex_full_Plus_Chr; [now destruct ds|].
      intros c Hc. eapply Hd, char_in_take, Hc. }
    apply (regex_full_Cat _ _ "." (drop 1 ds +:+ "e" +:+ es)); [reflexivity|].
    apply regex_full_Cat; [|exact He].
    apply regex_full_Star_Chr. intros c Hc. eapply Hd, char_in_drop, Hc.
Qed.

Lemma Number_toString_shape (x : number) :
  no_exponent_marker (Number_toString x)
  \/ regex_test scientific_pattern (Number_toString x) = true.
Proof.
  destruct x as [s|s| |sg m e].
  - left. split; simpl; intuition discriminate.
  - left. destruct s; split; simpl; intuition discriminate.
  - left. split; simpl; intuition discriminate.
  - unfold Number_toString.
    destruct (shortest _ _ _ _ _) as [s j]. destruct (strip0 _ _ _) as [s' j'].
    set (ds := digits10 s'). set (n := j' + _).
    destruct (format_shape ds n (if sg then "-" else "")%string
                (digits10_nonempty s') (digits10_digits s')) as [Hp|Ht];
      [left | now right].
    assert (H : forall c, char_in c ((if sg then "-" else "") +:+ format ds n) ->
                          c <> "e"%char /\ c <> "E"%char).
    { intros c Hc. apply is_digit_not_marker.
      apply char_in_app in Hc as [Hc|Hc].
      - destruct sg; simpl in Hc; intuition.
      - destruct (Hp c Hc); auto. }
    split; intros Hc; now apply H in Hc.
Qed.

(** * Properties of the wrapper *)

(** ** The error classifier *)

Section Classifier.

(** The payload of the body, which the handler does not look at. *)
Context {P : Type}.

(** What [handleResponse] surfaces is the failure in effect (the error
    built from a body with a truthy code, else the error of the call,
    a string wrapped in an [Error]), tagged when its message carries a
    signature. *)
Lemma handleResponse_error_inv (error : value) (body : option (Body P)) (err : value) :
  handleResponse error body = callback_error err ->
  get_notFatal err = includes (get_message err) recoverableErrors
                     || get_notFatal err && get_notFatal error.
Proof.
  unfold handleResponse.
  set (e1 := match body with
             | Some b => if truthy (code b) then new_Error _ else error
             | None => error
             end).
  assert (Htag : get_notFatal e1 = true -> get_notFatal error = true).
  { subst e1. unfold new_Error.
    destruct body as [b|]; [destruct (truthy (code b))|]; simpl; intros Ht;
      (discriminate Ht || exact Ht). }
  destruct (truthy e1); [|discriminate].
  set (e2 := match e1 with VStr s => new_Error s | _ => e1 end).
  assert (Htag2 : get_notFatal e2 = true -> get_notFatal error = true).
  { subst e2. unfold new_Error. destruct e1; simpl in *; intros Ht;
      (discriminate Ht || now apply Htag). }
  destruct (includes (get_message e2) recoverableErrors) eqn:Hinc; intros [= <-].
  - destruct e2; simpl in *; try discriminate. now rewrite Hinc.
  - rewrite Hinc. simpl. destruct (get_notFatal e2) eqn:Ht; [|reflexivity].
    now rewrite Htag2.
Qed.

(** C1. Every failure [handleResponse] surfaces to the callback is
    classified by its message: when the message contains one of the
    fixed signatures the error carries the [notFatal] tag; when it
    matches none the handler adds no tag, so the error is surfaced as
    fatal (it is tagged only if the error object it was handed already
    was).  [occurs_in] compares character by character: the match is a
    case-sensitive substring match. *)
Theorem handleResponse_classifies (error : value) (body : option (Body P)) (err : value) :
  handleResponse error body = callback_error err ->
  (has_signature err -> get_notFatal err = true)
  /\ (~ has_signature err -> get_notFatal error = false -> get_notFatal err = false).
Proof.
  intros H. apply handleResponse_error_inv in H. split.
  - intros Hs. apply includes_signature in Hs. rewrite H, Hs. reflexivity.
  - intros Hn Hin. rewrite <- includes_signature in Hn.
    apply not_true_is_false in Hn. rewrite H, Hn, Hin. simpl. apply andb_false_r.
Qed.

End Classifier.

(** An error of the transport whose message contains ["ETIMEDOUT"] is
    tagged; an error with the message ["Insufficient balance"] is not. *)
Lemma handleResponse_classifies_witness :
  handleResponse (P := unit) (VStr "connect ETIMEDOUT 10.0.0.1:443") None
  = callback_error (VError (VStr "connect ETIMEDOUT 10.0.0.1:443") true)
  /\ get_notFatal (VError (VStr "connect ETIMEDOUT 10.0.0.1:443") true) = true
  /\ handleResponse (VError (VStr "Insufficient balance") false) (@None (Body unit))
     = callback_error (VError (VStr "Insufficient balance") false)
  /\ get_notFatal (VError (VStr "Insufficient balance") false) = false.
Proof.
  assert (H1 : handleResponse (P := unit) (VStr "connect ETIMEDOUT 10.0.0.1:443") None
               = callback_error (VError (VStr "connect ETIMEDOUT 10.0.0.1:443") true))
    by reflexivity.
  assert (H2 : handleResponse (VError (VStr "Insufficient balance") false) (@None (Body unit))
               = callback_error (VError (VStr "Insufficient balance") false))
    by reflexivity.
  split; [exact H1|]. split.
  - apply (proj1 (handleResponse_classifies _ _ _ H1)).
    apply includes_signature. reflexivity.
  - split; [exact H2|].
    apply (proj2 (handleResponse_classifies _ _ _ H2)); [|reflexivity].
    intros Hs. apply includes_signature in Hs. discriminate Hs.
Defined.

(** A signature in lower case is not one; the code -1021 of a payload
    becomes part of the message and is one. *)
Example handleResponse_case_sensitive :
  handleResponse (P := unit) (VStr "connect etimedout") None
  = callback_error (VError (VStr "connect etimedout") false).
Proof. reflexivity. Qed.

Example handleResponse_timestamp_drift :
  handleResponse (VUndefined)
    (Some {| code := VNum (num "-1021"); msg := VStr "Timestamp outside recvWindow";
             payload := tt |})
  = callback_error
      (VError (VStr "Error -1021: Timestamp outside recvWindow") true).
Proof. vm_compute. reflexivity. Qed.

(** C10 (as stated, at a payload with only a [msg]).  A body
    [{msg: "Insufficient balance"}] has no [code]; with no error of the
    call the handler passes it on as a normal result, not as a fatal
    error. *)
Lemma handleResponse_msg_only_is_result :
  handleResponse VUndefined
    (Some {| code := VUndefined; msg := VStr "Insufficient balance"; payload := tt |})
  = callback_result
      (Some {| code := VUndefined; msg := VStr "Insufficient balance"; payload := tt |})
  /\ ~ exists err,
         handleResponse VUndefined
           (Some {| code := VUndefined; msg := VStr "Insufficient balance";
                    payload := tt |})
         = callback_error err.
Proof.
  split; [reflexivity|]. intros [err H]. discriminate H.
Qed.

(** C10 (amended).  A body whose [code] is falsy (absent, zero, false,
    empty, NaN) is never made into an error: the outcome is the one of
    the call without the body read, and with no error of the call the
    body is the result.  A body with a truthy [code] is surfaced as the
    error ["Error <code>: <msg>"], tagged exactly when that message
    carries a signature, so fatal by default. *)
Theorem handleResponse_code {P : Type} (error : value) (b : Body P) :
  (truthy (code b) = false ->
     match handleResponse error (Some b) with
     | callback_error err => truthy error = true
                             /\ handleResponse error (@None (Body P)) = callback_error err
     | callback_result r => truthy error = false /\ r = Some b
     end)
  /\ (truthy (code b) = true ->
      let m := ("Error " +:+ ToString (code b) +:+ ": " +:+ ToString (msg b))%string in
      handleResponse error (Some b)
      = callback_error (VError (VStr m) (includes (VStr m) recoverableErrors))).
Proof.
  split; intros Hc.
  - unfold handleResponse. rewrite Hc.
    destruct (truthy error); [|now split].
    split; reflexivity.
  - unfold handleResponse. rewrite Hc. unfold new_Error. simpl truthy. cbv iota.
    cbn [get_message]. now destruct (includes _ recoverableErrors).
Qed.

Lemma handleResponse_code_witness :
  handleResponse VUndefined
    (Some {| code := VNum (S754_zero false); msg := VStr "ok"; payload := tt |})
  = callback_result
      (Some {| code := VNum (S754_zero false); msg := VStr "ok"; payload := tt |})
  /\ handleResponse VUndefined
       (Some {| code := VNum (num "-2010"); msg := VStr "Insufficient balance";
                payload := tt |})
     = callback_error (VError (VStr "Error -2010: Insufficient balance") false).
Proof.
  split.
  - pose proof (proj1 (handleResponse_code VUndefined
      {| code := VNum (S754_zero false); msg := VStr "ok"; payload := tt |}) eq_refl) as H.
    destruct (handleResponse _ _) as [err|r]; destruct H as [H1 H2];
      [discriminate H1 | now rewrite H2].
  - exact (proj2 (handleResponse_code VUndefined
      {| code := VNum (num "-2010"); msg := VStr "Insufficient balance";
         payload := tt |}) eq_refl).
Defined.

(** ** getPortfolio *)

(** C7 (the code at the inputs of the claim).  With no error, a
    response in which the entry of the asset or of the currency is
    missing, or in which one of the two [free] fields parses to NaN,
    ends in a TypeError: the callback is not called and no amount is set
    to 0. *)
Theorem setBalance_throws (this : Trader) (err : value) (balances : list balance) :
  truthy err = false ->
  find_balance (asset this) balances = None
  \/ find_balance (currency this) balances = None
  \/ (exists a, find_balance (asset this) balances = Some a
                /\ isNaN (parseFloat (free a)) = true)
  \/ (exists c, find_balance (currency this) balances = Some c
                /\ isNaN (parseFloat (free c)) = true) ->
  setBalance this err balances = Throws TypeError.
Proof.
  intros Hf H. unfold setBalance. rewrite Hf.
  destruct (find_balance (asset this) balances) as [a|] eqn:Ha; [|reflexivity].
  destruct (find_balance (currency this) balances) as [c|] eqn:Hc; [|reflexivity].
  destruct H as [H|[H|[(a' & [= <-] & Hn)|(c' & [= <-] & Hn)]]]; try discriminate H.
  - now rewrite Hn.
  - rewrite Hn. now destruct (isNaN (parseFloat (free a))).
Qed.

Lemma setBalance_throws_witness :
  setBalance {| asset := "BTC"; currency := "USDT" |} VUndefined
    [ {| balance_asset := "BTC"; free := VStr "" |};
      {| balance_asset := "USDT"; free := VStr "12.5" |} ]
  = Throws TypeError
  /\ setBalance {| asset := "BTC"; currency := "USDT" |} VUndefined
       [ {| balance_asset := "USDT"; free := VStr "12.5" |} ]
     = Throws TypeError.
Proof.
  split; apply setBalance_throws; try reflexivity.
  - right. right. left. eexists. split; reflexivity.
  - left. reflexivity.
Defined.

(** When both entries are there and both amounts parse, the portfolio
    is delivered. *)
Example setBalance_delivers :
  setBalance {| asset := "BTC"; currency := "USDT" |} VUndefined
    [ {| balance_asset := "BTC"; free := VStr "0.00100000" |};
      {| balance_asset := "USDT"; free := VStr "12.5" |} ]
  = Returns (callback_result
      [ {| name := "BTC"; amount := num "0.001" |};
        {| name := "USDT"; amount := num "12.5" |} ]).
Proof. vm_compute. reflexivity. Qed.

(** ** getPrecision *)

(** The value of [e] after [n] turns of the loop. *)
Lemma getPrecision_while_split (n fuel : nat) (t e : number) (p : nat) :
  getPrecision_while (n + fuel) t e p =
  match getPrecision_while n t e p with
  | Some r => Some r
  | None => getPrecision_while fuel t (Nat.iter n (fun e => mul e (ofZ 10)) e) (n + p)
  end.
Proof.
  revert e p. induction n as [|n IH]; intros e p; [reflexivity|].
  cbn [getPrecision_while Nat.add].
  destruct (strict_neq _ t); [|reflexivity].
  rewrite IH. destruct (getPrecision_while n t _ (S p)); [reflexivity|].
  rewrite Nat.iter_succ_r. now replace (n + S p)%nat with (S n + p)%nat by lia.
Qed.

Lemma getPrecision_while_bound (n : nat) (t e : number) (p r : nat) :
  getPrecision_while n t e p = Some r -> (p <= r < p + n)%nat.
Proof.
  revert e p. induction n as [|n IH]; intros e p; [discriminate|].
  cbn [getPrecision_while]. destruct (strict_neq _ t).
  - intros H. apply IH in H. lia.
  - intros [= <-]. lia.
Qed.

(** Once [e] is [Infinity] the test of the loop holds for every tick
    size: [Math.round(tickSize * e) / e] is NaN, and [e * 10] is
    [Infinity] again. *)
Lemma getPrecision_test_at_Infinity (t : number) :
  strict_neq (div (Math_round (mul t Infinity)) Infinity) t = true.
Proof. destruct t as [[]|[]| |[] m e]; reflexivity. Qed.

Lemma getPrecision_while_Infinity (fuel : nat) (t : number) (p : nat) :
  getPrecision_while fuel t Infinity p = None.
Proof.
  revert p. induction fuel as [|fuel IH]; intros p; [reflexivity|].
  cbn [getPrecision_while]. rewrite getPrecision_test_at_Infinity. apply IH.
Qed.

Lemma getPrecision_e_overflows :
  Nat.iter 309 (fun e => mul e (ofZ 10)) (ofZ 1) = Infinity.
Proof. vm_compute. reflexivity. Qed.

(** More than 310 iterations never help: a call of [getPrecision]
    returns within 309 turns of the loop or not at all. *)
Lemma getPrecision_fuel_enough (fuel : nat) (t : number) :
  (310 <= fuel)%nat -> getPrecision_fuel fuel t = getPrecision t.
Proof.
  intros Hf. unfold getPrecision, getPrecision_fuel.
  destruct (negb (isFinite t)); [reflexivity|].
  replace fuel with (309 + (fuel - 309))%nat by lia.
  replace 310%nat with (309 + 1)%nat by reflexivity.
  rewrite !getPrecision_while_split, getPrecision_e_overflows.
  now rewrite !getPrecision_while_Infinity.
Qed.

Lemma getPrecision_fuel_returns (fuel : nat) (t : number) (p : nat) :
  getPrecision_fuel fuel t = Some p -> getPrecision t = Some p.
Proof.
  intros H. destruct (le_lt_dec 310 fuel) as [Hf|Hf].
  - now rewrite <- (getPrecision_fuel_enough fuel).
  - revert H. unfold getPrecision, getPrecision_fuel.
    destruct (negb (isFinite t)); [easy|].
    replace 310%nat with (fuel + (310 - fuel))%nat by lia.
    rewrite getPrecision_while_split. now intros ->.
Qed.

Lemma getPrecision_none_diverges (t : number) :
  getPrecision t = None -> forall fuel, getPrecision_fuel fuel t = None.
Proof.
  intros H fuel. destruct (getPrecision_fuel fuel t) as [p|] eqn:Hp; [|reflexivity].
  apply getPrecision_fuel_returns in Hp. congruence.
Qed.

(** C8 (as stated, at the least positive number and at [1e-20]).  The
    loop of [getPrecision] has no cap.  On the finite tick size
    [5e-324] no number of iterations leaves it: while [e] is finite the
    product is at most [4.94e-16] and rounds to 0, and once [e] is
    [Infinity] the quotient is NaN.  On [1e-20] the loop runs 20 times,
    past any cap of 15. *)
Lemma getPrecision_unbounded :
  isFinite (num "5e-324") = true
  /\ (forall fuel, getPrecision_fuel fuel (num "5e-324") = None)
  /\ getPrecision (num "1e-20") = Some 20%nat.
Proof.
  split; [reflexivity|]. split.
  - apply getPrecision_none_diverges. vm_compute. reflexivity.
  - vm_compute. reflexivity.
Qed.

(** C8 (amended).  [getPrecision] returns 0 at once for an input that
    is not finite.  For a finite input the iteration has no cap of its
    own; it is the overflow of [e] that bounds it: if the call returns
    at all it returns a count of at most 308, reached within 309 turns
    of the loop, and if 310 turns do not leave the loop then no number of
    turns does. *)
Theorem getPrecision_termination (t : number) :
  (isFinite t = false -> forall fuel, getPrecision_fuel fuel t = Some 0%nat)
  /\ (forall fuel p, getPrecision_fuel fuel t = Some p ->
        (p <= 308)%nat /\ getPrecision_fuel 310 t = Some p)
  /\ (getPrecision_fuel 310 t = None -> forall fuel, getPrecision_fuel fuel t = None).
Proof.
  split; [|split].
  - intros Hf fuel. unfold getPrecision_fuel. now rewrite Hf.
  - intros fuel p H. apply getPrecision_fuel_returns in H. split; [|exact H].
    revert H. unfold getPrecision, getPrecision_fuel.
    destruct (negb (isFinite t)); [intros [= <-]; lia|].
    replace 310%nat with (309 + 1)%nat by reflexivity.
    rewrite getPrecision_while_split, getPrecision_e_overflows,
      getPrecision_while_Infinity.
    destruct (getPrecision_while 309 t (ofZ 1) 0) as [r|] eqn:Hr; [|discriminate].
    intros [= <-]. apply getPrecision_while_bound in Hr. lia.
  - apply getPrecision_none_diverges.
Qed.

Lemma getPrecision_termination_witness :
  (forall fuel, getPrecision_fuel fuel Infinity = Some 0%nat)
  /\ ((7 <= 308)%nat /\ getPrecision_fuel 310 (num "0.0000001") = Some 7%nat)
  /\ (forall fuel, getPrecision_fuel fuel (num "5e-324") = None).
Proof.
  split; [|split].
  - apply (proj1 (getPrecision_termination Infinity)). reflexivity.
  - apply (proj1 (proj2 (getPrecision_termination (num "0.0000001"))) 8%nat).
    vm_compute. reflexivity.
  - apply (proj2 (proj2 (getPrecision_termination (num "5e-324")))).
    vm_compute. reflexivity.
Defined.

(** The double nearest to [10^k], for each [k] from -22 to 308, has
    precision [max 0 (-k)]: checked by running [getPrecision] on all of
    them. *)
Lemma getPrecision_powers_check :
  forallb (fun k => match getPrecision (of_decimal false 1 k) with
                    | Some p => Nat.eqb p (Z.to_nat (- k))
                    | None => false
                    end)
          (seqZ (-22) 331) = true.
Proof. vm_compute. reflexivity. Qed.

(** C3 (as stated, at [1e-23]).  The tick size [1e-23] has 23 decimal
    places.  At 23 digits [e] is [1e23], the product [1e-23 * 1e23] is
    [0.9999999999999999], which rounds to 1, and [1 / 1e23] is
    [1.0000000000000001e-23], not the tick size; the loop leaves one
    turn later, at 24. *)
Lemma getPrecision_1e_23 :
  of_decimal false 1 (-23) = num "1e-23"
  /\ getPrecision (num "1e-23") = Some 24%nat
  /\ Nat.iter 23 (fun e => mul e (ofZ 10)) (ofZ 1) = num "1e23"
  /\ mul (num "1e-23") (num "1e23") = num "0.9999999999999999"
  /\ div (Math_round (num "0.9999999999999999")) (num "1e23")
     = num "1.0000000000000001e-23".
Proof. repeat split; vm_compute; reflexivity. Qed.

(** C3 (amended).  For every power of ten [10^k] with [-22 <= k <= 308]
    (the double that the literal denotes), [getPrecision] returns its
    number of decimal places, [-k] for a negative exponent and 0
    otherwise; it returns 0 for 0 and for [Infinity].  On
    [round(0.0000001234, 0.0000001)] the precision is 7 and the result
    is the string ["0.0000001"]. *)
Theorem getPrecision_power_of_ten (k : Z) :
  -22 <= k <= 308 ->
  getPrecision (of_decimal false 1 k) = Some (Z.to_nat (- k))
  /\ getPrecision (num "0") = Some 0%nat
  /\ getPrecision Infinity = Some 0%nat
  /\ getPrecision (num "0.0000001") = Some 7%nat
  /\ round (VNum (num "0.0000001234")) (num "0.0000001") = Returns "0.0000001"%string.
Proof.
  intros Hk. split; [|repeat split; vm_compute; reflexivity].
  pose proof getPrecision_powers_check as H.
  rewrite forallb_forall in H. specialize (H k).
  destruct (getPrecision (of_decimal false 1 k)) as [p|].
  - f_equal. apply Nat.eqb_eq, H, list_elem_of_In, elem_of_seqZ. lia.
  - discriminate H. apply list_elem_of_In, elem_of_seqZ. lia.
Qed.

Lemma getPrecision_power_of_ten_witness :
  getPrecision (of_decimal false 1 (-8)) = Some 8%nat
  /\ getPrecision (num "0") = Some 0%nat
  /\ getPrecision Infinity = Some 0%nat
  /\ getPrecision (num "0.0000001") = Some 7%nat
  /\ round (VNum (num "0.0000001234")) (num "0.0000001") = Returns "0.0000001"%string.
Proof. apply (getPrecision_power_of_ten (-8)). lia. Defined.

(** ** scientificToDecimal and round leave no exponent marker *)

Lemma scientificToDecimal_no_exponent (x : number) (s : string) :
  scientificToDecimal x = Returns s -> no_exponent_marker s.
Proof.
  unfold scientificToDecimal.
  destruct (regex_test scientific_pattern (Number_toString x)) eqn:Ht.
  - set (parts := split "e" (toLowerCase (Number_toString x))).
    destruct (removelast parts) as [|coeff rest] eqn:Hparts; [discriminate|].
    assert (Hcoeff : forall c, char_in c (join (split "." coeff)) ->
                               c <> "e"%char /\ c <> "E"%char).
    { intros c Hc. apply char_in_join in Hc as (p & Hp & Hc).
      apply (split_pieces "." c coeff p Hp) in Hc as [Hc _].
      assert (Hin : In coeff parts) by (apply In_removelast; rewrite Hparts; now left).
      destruct (split_pieces "e" c _ coeff Hin Hc) as [Hl Hne].
      split; [exact Hne | now apply char_in_toLowerCase in Hl]. }
    assert (Hz : forall l z c, Array_join_zero l = Some z -> char_in c z ->
                               c <> "e"%char /\ c <> "E"%char).
    { intros l z c Hl Hc. unfold Array_join_zero in Hl.
      destruct (array_length l); [|discriminate]. injection Hl as <-.
      apply char_in_zeros in Hc as ->. split; discriminate. }
    destruct (strict_eq _ _).
    + destruct (Array_join_zero _) as [z|] eqn:Hl; [|discriminate]. intros [= <-].
      assert (H : forall c, char_in c ("0" +:+ "." +:+ z +:+ join (split "." coeff)) ->
                            c <> "e"%char /\ c <> "E"%char).
      { intros c Hc. rewrite !char_in_app in Hc.
        destruct Hc as [[->|[]]|[[->|[]]|[Hc|Hc]]];
          [split; discriminate | split; discriminate | eapply Hz; eauto
          | now apply Hcoeff]. }
      split; intros Hc; now apply H in Hc.
    + assert (Hret : match Array_join_zero
                             (add (Math_abs (StringToNumber (List.last parts ""%string))) (ofZ 1)) with
                     | Some z => Returns (join (split "." coeff) +:+ z)
                     | None => Throws RangeError
                     end = Returns s -> no_exponent_marker s).
      { destruct (Array_join_zero _) as [z|] eqn:Hl; [|discriminate]. intros [= <-].
        assert (H : forall c, char_in c (join (split "." coeff) +:+ z) ->
                              c <> "e"%char /\ c <> "E"%char).
        { intros c Hc.
          apply char_in_app in Hc as [Hc|Hc]; [now apply Hcoeff | eapply Hz; eauto]. }
        split; intros Hc; now apply H in Hc. }
      destruct (split "." coeff) as [|p0 [|[|c1 p1] ps]]; try exact Hret. discriminate.
  - intros [= <-]. destruct (Number_toString_shape x) as [H|H]; [exact H | congruence].
Qed.

(** ** round *)


(** Both ends of the range: [1e-7] and [1e21] print as [1e-7] and
    [1e+21], and [round] writes them out in full.  A coefficient with a
    fraction and a positive exponent ([1.5e+21]) runs into the
    assignment to the constant [l]. *)
Example round_small_and_large :
  Number_toString (num "1e-7") = "1e-7"%string
  /\ round (VNum (num "1e-7")) (num "1e-8") = Returns "0.0000001"%string
  /\ Number_toString (num "1e21") = "1e+21"%string
  /\ round (VNum (num "1e21")) (num "1") = Returns "1000000000000000000000"%string
  /\ round (VNum (num "1.5e21")) (num "1") = Throws TypeError.
Proof. repeat split; vm_compute; reflexivity. Qed.

(** ** round is not idempotent *)


(** ** getOrder *)






(** ** checkOrder *)

(** C6. With no error, the status of the order decides what the
    callback receives: CANCELED, REJECTED and EXPIRED give
    [{executed: false, open: false}]; NEW and PARTIALLY_FILLED give
    [{executed: false, open: true, filledAmount: +executedQty}]; FILLED
    gives [{executed: true, open: false}]; any other status is thrown,
    and no callback is called. *)
Theorem checkOrder_status (err : value) (data : order_data) :
  truthy err = false ->
  (In (status data) [VStr "CANCELED"; VStr "REJECTED"; VStr "EXPIRED"] ->
     checkOrder err data
     = Returns (callback_result
         {| executed := false; open := false; filledAmount := None |}))
  /\ (In (status data) [VStr "NEW"; VStr "PARTIALLY_FILLED"] ->
      checkOrder err data
      = Returns (callback_result
          {| executed := false; open := true;
             filledAmount := Some (ToNumber (executedQty data)) |}))
  /\ (status data = VStr "FILLED" ->
      checkOrder err data
      = Returns (callback_result
          {| executed := true; open := false; filledAmount := None |}))
  /\ (~ In (status data)
          [VStr "CANCELED"; VStr "REJECTED"; VStr "EXPIRED"; VStr "NEW";
           VStr "PARTIALLY_FILLED"; VStr "FILLED"] ->
      checkOrder err data = Throws (Thrown (status data))).
Proof.
  intros Hf. unfold checkOrder. rewrite Hf. repeat split.
  - intros [<-|[<-|[<-|[]]]]; reflexivity.
  - intros [<-|[<-|[]]]; reflexivity.
  - intros ->. reflexivity.
  - intros Hn.
    assert (Hs : forall s, In (VStr s)
                   [VStr "CANCELED"; VStr "REJECTED"; VStr "EXPIRED"; VStr "NEW";
                    VStr "PARTIALLY_FILLED"; VStr "FILLED"] ->
                 is_status (status data) s = false).
    { intros s Hin. unfold is_status. destruct (status data) as [| | | |t|] eqn:Ht;
        try reflexivity.
      apply String.eqb_neq. intros ->. now apply Hn. }
    rewrite !Hs by (simpl; tauto). reflexivity.
Qed.

(** The status ["PARTIALLY_FILLED"] with [executedQty: "0.5"] gives a
    filled amount of [0.5]; an unknown status is thrown. *)
Lemma checkOrder_status_witness :
  checkOrder VUndefined {| status := VStr "PARTIALLY_FILLED"; executedQty := VStr "0.5" |}
  = Returns (callback_result
      {| executed := false; open := true; filledAmount := Some (num "0.5") |})
  /\ checkOrder VUndefined {| status := VStr "PENDING_CANCEL"; executedQty := VStr "0" |}
     = Throws (Thrown (VStr "PENDING_CANCEL")).
Proof.
  split.
  - apply (proj1 (proj2 (checkOrder_status VUndefined
      {| status := VStr "PARTIALLY_FILLED"; executedQty := VStr "0.5" |} eq_refl))).
    simpl. tauto.
  - apply (proj2 (proj2 (proj2 (checkOrder_status VUndefined
      {| status := VStr "PENDING_CANCEL"; executedQty := VStr "0" |} eq_refl)))).
    simpl. intuition discriminate.
Defined.

(** ** cancelOrder *)

(** C4. Whatever the order id, when the failure handed to the
    completion has a message that includes ["UNKNOWN_ORDER"] the callback
    receives [(undefined, true)] and no error; when there is no failure
    it receives [(undefined, false)]. *)
Theorem cancelOrder_unknown_order {D : Type} (this : Trader) (order err : value) (data : D) :
  (forall m, get_message err = VStr m -> occurs_in "UNKNOWN_ORDER" m ->
     cancelOrder this order err data = Returns (callback_result true))
  /\ (truthy err = false ->
      cancelOrder this order err data = Returns (callback_result false)).
Proof.
  split.
  - intros m Hm Ho. unfold cancelOrder.
    destruct err; try discriminate Hm. simpl in *. subst.
    apply String_includes_occurs in Ho. now rewrite Ho.
  - intros Hf. unfold cancelOrder. now rewrite Hf.
Qed.

Lemma cancelOrder_unknown_order_witness :
  cancelOrder {| asset := "BTC"; currency := "USDT" |} (VNum (num "42"))
    (VError (VStr "Error -2011: UNKNOWN_ORDER") false) tt
  = Returns (callback_result true)
  /\ cancelOrder {| asset := "BTC"; currency := "USDT" |} (VNum (num "42")) VUndefined tt
     = Returns (callback_result false).
Proof.
  split.
  - apply (proj1 (cancelOrder_unknown_order _ _ _ _) "Error -2011: UNKNOWN_ORDER"%string).
    + reflexivity.
    + apply String_includes_occurs. reflexivity.
  - apply (proj2 (cancelOrder_unknown_order _ _ _ _)). reflexivity.
Defined.

(** The whole path of one answer of the exchange: the error payload
    [{code: -2011, msg: "UNKNOWN_ORDER"}] is surfaced untagged by
    [handleResponse] and turned into [true] by the completion. *)
Example cancelOrder_filled_order :
  handleResponse VUndefined
    (Some {| code := VNum (num "-2011"); msg := VStr "UNKNOWN_ORDER"; payload := tt |})
  = callback_error (VError (VStr "Error -2011: UNKNOWN_ORDER") false)
  /\ cancelOrder {| asset := "BTC"; currency := "USDT" |} (VStr "42")
       (VError (VStr "Error -2011: UNKNOWN_ORDER") false) tt
     = Returns (callback_result true).
Proof. split; vm_compute; reflexivity. Qed.

(** * Further facts about the ECMAScript fragment *)

(** ** What a match tells about the string *)

Lemma regex_full_Eps_inv (s : string) : regex_full Eps s = true -> s = ""%string.
Proof. destruct s as [|c s]; [reflexivity|]. simpl. now rewrite regex_full_Void. Qed.

Lemma regex_full_Chr_inv (p : ascii -> bool) (s : string) :
  regex_full (Chr p) s = true -> exists c, s = String c "" /\ p c = true.
Proof.
  destruct s as [|c s]; [discriminate|]. simpl. destruct (p c) eqn:Hp.
  - intros H. apply regex_full_Eps_inv in H as ->. now exists c.
  - now rewrite regex_full_Void.
Qed.

Lemma regex_full_Cat_inv (r1 r2 : regex) (s : string) :
  regex_full (Cat r1 r2) s = true ->
  exists s1 s2, s = s1 +:+ s2 /\ regex_full r1 s1 = true /\ regex_full r2 s2 = true.
Proof.
  revert r1. induction s as [|c s IH]; intros r1.
  - simpl. rewrite andb_true_iff. intros [H1 H2]. now exists ""%string, ""%string.
  - simpl. destruct (nullable r1) eqn:Hn.
    + rewrite regex_full_Alt, orb_true_iff. intros [H|H].
      * destruct (IH _ H) as (s1 & s2 & -> & H1 & H2). now exists (String c s1), s2.
      * now exists ""%string, (String c s).
    + intros H. destruct (IH _ H) as (s1 & s2 & -> & H1 & H2). now exists (String c s1), s2.
Qed.

(** A literal pattern matches itself and nothing else. *)
Lemma regex_full_literal (t s : string) : regex_full (literal t) s = true <-> s = t.
Proof.
  revert s. induction t as [|c t IH]; intros s.
  - split; [apply regex_full_Eps_inv | now intros ->].
  - split.
    + intros H. cbn [literal] in H.
      apply regex_full_Cat_inv in H as (s1 & s2 & -> & H1 & H2).
      apply regex_full_Chr_inv in H1 as (d & -> & Hd).
      apply Ascii.eqb_eq in Hd as <-. apply IH in H2 as ->. reflexivity.
    + intros ->. change (String c t) with (String c "" +:+ t). cbn [literal].
      apply regex_full_Cat; [apply regex_full_Chr, Ascii.eqb_refl | now apply IH].
Qed.

Lemma regex_test_inv (r : regex) (s : string) :
  regex_test r s = true ->
  exists pre mid post, s = pre +:+ mid +:+ post /\ regex_full r mid = true.
Proof.
  unfold regex_test. intros H.
  apply regex_full_Cat_inv in H as (pre & s' & -> & _ & H).
  apply regex_full_Cat_inv in H as (mid & post & -> & H & _).
  now exists pre, mid, post.
Qed.

(** Testing a literal pattern is searching for the string. *)
Lemma regex_test_literal (t s : string) :
  regex_test (literal t) s = String_includes s t.
Proof.
  apply eq_true_iff_eq. rewrite String_includes_occurs. split.
  - intros H. apply regex_test_inv in H as (pre & mid & post & -> & H).
    apply regex_full_literal in H as ->. now exists pre, post.
  - intros (l & r & ->). apply regex_test_intro. now apply regex_full_literal.
Qed.

(** ** Occurrences *)

Lemma length_app_string (s1 s2 : string) :
  String.length (s1 +:+ s2) = (String.length s1 + String.length s2)%nat.
Proof.
  induction s1 as [|c s1 IH]; [reflexivity|]. cbn [String.length].
  change (S (String.length (s1 +:+ s2)) = S (String.length s1 + String.length s2)).
  now rewrite IH.
Qed.

Lemma occurs_in_length (t s : string) :
  occurs_in t s -> (String.length t <= String.length s)%nat.
Proof. intros (l & r & ->). rewrite !length_app_string. lia. Qed.

Lemma string_app_assoc (a b c : string) : (a +:+ b) +:+ c = a +:+ b +:+ c.
Proof.
  induction a as [|x a IH]; [reflexivity|].
  change (String x ((a +:+ b) +:+ c) = String x (a +:+ b +:+ c)). now rewrite IH.
Qed.

Lemma occurs_in_trans (a b c : string) : occurs_in a b -> occurs_in b c -> occurs_in a c.
Proof.
  intros (l1 & r1 & ->) (l2 & r2 & ->). exists (l2 +:+ l1), (r1 +:+ r2).
  now rewrite !string_app_assoc.
Qed.

Lemma occurs_in_app_r (t a s : string) : occurs_in t s -> occurs_in t (a +:+ s).
Proof. intros (l & r & ->). exists (a +:+ l), r. now rewrite string_app_assoc. Qed.

Lemma String_includes_trans (s a b : string) :
  occurs_in a b -> String_includes s b = true -> String_includes s a = true.
Proof.
  rewrite !String_includes_occurs. intros H1 H2. exact (occurs_in_trans _ _ _ H1 H2).
Qed.

(** ** Reading decimal digits *)

Lemma scan_digits_acc (u : Decimal.uint) (acc : positive) (n : Z) :
  scan_digits (NilEmpty.string_of_uint u) (Zpos acc) n
  = (Zpos (Pos.of_uint_acc u acc), n + Z.of_nat (String.length (NilEmpty.string_of_uint u)),
     ""%string).
Proof.
  revert acc n.
  induction u as [|u IH|u IH|u IH|u IH|u IH|u IH|u IH|u IH|u IH|u IH]; intros acc n;
    cbn [NilEmpty.string_of_uint scan_digits String.length Pos.of_uint_acc];
    [f_equal; f_equal; lia | ..];
    change (is_digit _) with true; cbv iota;
    match goal with
    | |- scan_digits _ ?a _ = (Zpos (Pos.of_uint_acc _ ?q), _, _) =>
        replace a with (Zpos q) by (unfold digit_value; simpl N_of_ascii; lia)
    end;
    rewrite IH; f_equal; f_equal; lia.
Qed.

Lemma scan_digits_uint (u : Decimal.uint) (n : Z) :
  scan_digits (NilEmpty.string_of_uint u) 0 n
  = (Z.of_N (Pos.of_uint u), n + Z.of_nat (String.length (NilEmpty.string_of_uint u)),
     ""%string).
Proof.
  revert n.
  induction u as [|u IH|u IH|u IH|u IH|u IH|u IH|u IH|u IH|u IH|u IH]; intros n;
    cbn [NilEmpty.string_of_uint scan_digits String.length Pos.of_uint];
    [f_equal; f_equal; lia | ..];
    change (is_digit _) with true; cbv iota.
  1: { change (10 * 0 + digit_value "0") with 0. rewrite IH. f_equal; f_equal; lia. }
  all: match goal with
       | |- scan_digits _ ?a _ = (Z.of_N (Npos (Pos.of_uint_acc _ ?q)), _, _) =>
           change a with (Zpos q)
       end; rewrite scan_digits_acc; cbn [Z.of_N]; f_equal; f_equal; lia.
Qed.

(** Reading the decimal digits of [z] gives [z] back. *)
Lemma scan_digits_digits10 (z : Z) :
  0 <= z ->
  exists n, 0 < n /\ scan_digits (digits10 z) 0 0 = (z, n, ""%string).
Proof.
  intros Hz. unfold digits10, NilZero.string_of_uint.
  destruct (N.to_uint (Z.to_N z)) eqn:Hu.
  1:{ exists 1. split; [lia|].
      assert (H := DecimalN.Unsigned.of_to (Z.to_N z)). rewrite Hu in H. cbn in H.
      replace z with 0 by lia. reflexivity. }
  all: rewrite <- Hu; rewrite scan_digits_uint;
    change (Pos.of_uint (N.to_uint (Z.to_N z))) with (N.of_uint (N.to_uint (Z.to_N z)));
    rewrite DecimalN.Unsigned.of_to, Z2N.id by exact Hz;
    eexists; (split; [|reflexivity]); rewrite Hu;
    cbn [NilEmpty.string_of_uint String.length]; lia.
Qed.

Lemma digit_facts (c : ascii) :
  is_digit c = true ->
  is_space c = false /\ lower c = c /\ c <> "+"%char /\ c <> "-"%char /\ c <> "I"%char
  /\ c <> "x"%char /\ c <> "o"%char /\ c <> "b"%char /\ c <> "."%char.
Proof.
  destruct c as [[] [] [] [] [] [] [] []]; vm_compute; intros H; try discriminate H;
    repeat split; discriminate.
Qed.

Lemma rev_app_rev_app (s a b : string) :
  String.rev_app (String.rev_app s a) b = String.rev_app a (s +:+ b).
Proof.
  revert a b. induction s as [|c s IH]; intros a b; [reflexivity|].
  cbn [String.rev_app]. rewrite IH. reflexivity.
Qed.

Lemma string_rev_involutive (s : string) : String.rev (String.rev s) = s.
Proof. unfold String.rev. rewrite rev_app_rev_app. apply string_app_nil_r. Qed.

Lemma skip_spaces_rev_app (s a : string) :
  digit_string s -> skip_spaces a = a -> skip_spaces (String.rev_app s a) = String.rev_app s a.
Proof.
  revert a. induction s as [|c s IH]; intros a Hd Ha; [exact Ha|].
  cbn [String.rev_app]. apply IH.
  - intros d Hc. apply Hd. now right.
  - cbn [skip_spaces]. now rewrite (proj1 (digit_facts c (Hd c (or_introl eq_refl)))).
Qed.

Lemma skip_spaces_digits (s : string) : digit_string s -> skip_spaces s = s.
Proof.
  destruct s as [|c s]; [reflexivity|]. intros H. cbn [skip_spaces].
  now rewrite (proj1 (digit_facts c (H c (or_introl eq_refl)))).
Qed.

Lemma radix_literal_digits (s : string) : digit_string s -> radix_literal s = None.
Proof.
  intros H. destruct s as [|c0 [|c [|d r]]]; try reflexivity;
    try (destruct c0 as [[] [] [] [] [] [] [] []]; reflexivity).
  assert (Hc : is_digit c = true) by (apply H; right; now left).
  destruct (digit_facts c Hc) as (_ & Hl & _ & _ & _ & Hx & Ho & Hb & _).
  apply Ascii.eqb_neq in Hx, Ho, Hb.
  destruct (ascii_dec c0 "0") as [->|Hne].
  - unfold radix_literal. now rewrite Hl, Hx, Ho, Hb.
  - destruct c0 as [[] [] [] [] [] [] [] []]; try reflexivity. congruence.
Qed.

Lemma scan_unsigned_digits10 (neg : bool) (k : Z) :
  0 <= k -> scan_unsigned neg (digits10 k) = Some (of_decimal neg k 0, ""%string).
Proof.
  intros Hk.
  assert (Hd : digit_string (digits10 k)) by (intros c; apply digits10_digits).
  destruct (scan_digits_digits10 k Hk) as (n & Hn & Hs).
  unfold scan_unsigned, scan_decimal. rewrite Hs.
  destruct (digits10 k) as [|c s] eqn:Hds; [now apply digits10_nonempty in Hds|].
  assert (Hc : is_digit c = true) by (apply Hd; now left).
  destruct (digit_facts c Hc) as (_ & _ & _ & _ & HI & _).
  assert (Hpre : String.prefix "Infinity" (String c s) = false).
  { cbn [String.prefix]. destruct (ascii_dec "I" c) as [E|E]; [congruence | reflexivity]. }
  rewrite Hpre.
  replace (n =? 0) with false by (symmetry; apply Z.eqb_neq; lia).
  reflexivity.
Qed.

Lemma of_decimal_integer (neg : bool) (k : Z) :
  0 < k -> of_decimal neg k 0 = ofZ (cond_Zopp neg k).
Proof.
  intros Hk. destruct k as [|p|p]; try lia. unfold of_decimal.
  cbn [Z.leb Z.compare]. unfold ofZ. now rewrite Z.mul_1_r.
Qed.

(** A string of decimal digits that reads [z] converts to the number
    nearest to [z]. *)
Lemma StringToNumber_digits10 (z : Z) : 0 <= z -> StringToNumber (digits10 z) = ofZ z.
Proof.
  intros Hz.
  assert (Hd : digit_string (digits10 z)) by (intros c; apply digits10_digits).
  unfold StringToNumber. rewrite (skip_spaces_digits _ Hd).
  destruct (digits10 z) as [|c s] eqn:Hds; [now apply digits10_nonempty in Hds|].
  unfold String.rev at 2. rewrite skip_spaces_rev_app by (exact Hd || reflexivity).
  fold (String.rev (String c s)).
  rewrite string_rev_involutive, (radix_literal_digits _ Hd).
  assert (Hc : is_digit c = true) by (apply Hd; now left).
  destruct (digit_facts c Hc) as (_ & _ & Hp & Hm & _).
  assert (Hss : scan_signed (String c s) = scan_unsigned false (String c s)).
  { unfold scan_signed. destruct c as [[] [] [] [] [] [] [] []]; try reflexivity; congruence. }
  rewrite Hss, <- Hds, scan_unsigned_digits10 by exact Hz. cbn [skip_spaces].
  destruct z as [|p|p]; [reflexivity | now apply of_decimal_integer | lia].
Qed.

(** An exponent part, a sign and the digits of [k], converts to [+-k]. *)
Lemma StringToNumber_exponent (neg : bool) (k : Z) :
  0 < k ->
  StringToNumber ((if neg then "-" else "+") +:+ digits10 k) = ofZ (cond_Zopp neg k).
Proof.
  intros Hk.
  assert (Hd : digit_string (digits10 k)) by (intros c; apply digits10_digits).
  set (sg := if neg then "-"%char else "+"%char).
  assert (Hstr : (if neg then "-" else "+") +:+ digits10 k = String sg (digits10 k)).
  { now destruct neg. }
  rewrite Hstr. unfold StringToNumber.
  assert (Hsk : skip_spaces (String sg (digits10 k)) = String sg (digits10 k)).
  { now destruct neg. }
  rewrite Hsk.
  assert (Hrev : skip_spaces (String.rev (String sg (digits10 k)))
                 = String.rev (String sg (digits10 k))).
  { unfold String.rev. cbn [String.rev_app]. apply skip_spaces_rev_app; [exact Hd|].
    now destruct neg. }
  rewrite Hrev, string_rev_involutive.
  assert (Hrad : radix_literal (String sg (digits10 k)) = None).
  { now destruct neg. }
  rewrite Hrad.
  assert (Hsig : scan_signed (String sg (digits10 k)) = scan_unsigned neg (digits10 k)).
  { now destruct neg. }
  rewrite Hsig, scan_unsigned_digits10 by lia. cbn [skip_spaces].
  now apply of_decimal_integer.
Qed.

(** ** NaN in arithmetic, and the order of numbers *)

Lemma mul_NaN_r (x : number) : mul x NaN = NaN.
Proof. now destruct x. Qed.

Lemma add_NaN_r (x : number) : add x NaN = NaN.
Proof. now destruct x. Qed.

Lemma add_NaN_l (x : number) : add NaN x = NaN.
Proof. reflexivity. Qed.

Lemma div_NaN_l (x : number) : div NaN x = NaN.
Proof. reflexivity. Qed.

Lemma isNaN_eq (x : number) : isNaN x = true -> x = NaN.
Proof. now destruct x. Qed.

Lemma mul_comm (x y : number) : mul x y = mul y x.
Proof.
  destruct x as [sx|sx| |sx mx ex], y as [sy|sy| |sy my ey]; try reflexivity;
    unfold mul, SFmul; rewrite ?(xorb_comm sx sy); try reflexivity.
  now rewrite Pos.mul_comm, Z.add_comm.
Qed.

Lemma SFleb_NaN_r (x : number) : SFleb x NaN = false.
Proof. now destruct x. Qed.

Lemma lex_compare_spec (e1 : Z) (m1 : positive) (e2 : Z) (m2 : positive) :
  match lex_compare e1 m1 e2 m2 with
  | Lt => e1 < e2 \/ (e1 = e2 /\ Zpos m1 < Zpos m2)
  | Eq => e1 = e2 /\ m1 = m2
  | Gt => e2 < e1 \/ (e1 = e2 /\ Zpos m2 < Zpos m1)
  end.
Proof.
  unfold lex_compare. destruct (Z.compare_spec e1 e2) as [->|H|H]; [|now left..].
  change (Pos.compare_cont Eq m1 m2) with (Pos.compare m1 m2).
  destruct (Pos.compare_spec m1 m2) as [->|H|H];
    [now split | right; split; [reflexivity|lia]..].
Qed.

Lemma SFcompare_finite (s1 : bool) (m1 : positive) (e1 : Z)
  (s2 : bool) (m2 : positive) (e2 : Z) :
  SFcompare (S754_finite s1 m1 e1) (S754_finite s2 m2 e2)
  = Some (match s1, s2 with
          | true, false => Lt
          | false, true => Gt
          | false, false => lex_compare e1 m1 e2 m2
          | true, true => CompOpp (lex_compare e1 m1 e2 m2)
          end).
Proof.
  unfold lex_compare. cbn [SFcompare]. destruct s1, s2; try reflexivity.
  now destruct (e1 ?= e2).
Qed.

(** [<=] on numbers is transitive. *)
Lemma SFleb_trans (a b c : spec_float) :
  SFleb a b = true -> SFleb b c = true -> SFleb a c = true.
Proof.
  unfold SFleb.
  destruct a as [sa|sa| |sa ma ea], b as [sb|sb| |sb mb eb], c as [sc|sc| |sc mc ec];
    rewrite ?SFcompare_finite; cbn [SFcompare]; try discriminate; try reflexivity;
    try (destruct sa, sb; try discriminate; try reflexivity;
         destruct sc; try discriminate; reflexivity);
    try (destruct sa, sc; try discriminate; try reflexivity;
         destruct sb; try discriminate; reflexivity);
    try (destruct sb, sc; try discriminate; try reflexivity;
         destruct sa; try discriminate; reflexivity).
  pose proof (lex_compare_spec ea ma eb mb) as H1;
    pose proof (lex_compare_spec eb mb ec mc) as H2;
    pose proof (lex_compare_spec ea ma ec mc) as H3.
  destruct sa, sb, sc; try discriminate; try reflexivity;
    destruct (lex_compare ea ma eb mb); try discriminate;
    destruct (lex_compare eb mb ec mc); try discriminate;
    destruct (lex_compare ea ma ec mc); try reflexivity; intros _ _; exfalso; lia.
Qed.

Lemma ofZ_1 : ofZ 1 = S754_finite false 4503599627370496 (-52).
Proof. reflexivity. Qed.

(** A number from 0 up to, and not including, 1 has floor zero. *)
Lemma Math_floor_below_one (x : number) :
  mantissa_fits x -> ge x (ofZ 0) = true -> less_than x (ofZ 1) = true ->
  exists s, Math_floor x = S754_zero s.
Proof.
  intros Hm H0 H1. destruct x as [s|s| |s m e]; try discriminate H0.
  - now exists s.
  - destruct s; discriminate.
  - destruct s; [discriminate H0|].
    unfold less_than in H1. rewrite ofZ_1 in H1. unfold SFltb, SFcompare in H1.
    cbn [mantissa_fits] in Hm. unfold Math_floor.
    assert (He : e < 0).
    { destruct (Z.compare_spec e (-52)); try lia; try discriminate H1. }
    replace (0 <=? e) with false by (symmetry; apply Z.leb_gt; exact He).
    cbn [cond_Zopp].
    assert (Hd : Zpos m / 2 ^ (- e) = 0).
    { apply Z.div_small. split; [lia|].
      destruct (Z.compare_spec e (-52)) as [->|Hlt|Hgt]; [| |discriminate H1].
      - assert (Hc : (m ?= 4503599627370496)%positive = Lt).
        { unfold Pos.compare. destruct (Pos.compare_cont Eq m _); congruence. }
        replace (2 ^ (- (-52))) with (Z.pos 4503599627370496) by reflexivity.
        apply Pos2Z.pos_lt_pos. exact Hc.
      - apply Z.lt_le_trans with (2 ^ 53); [exact Hm|].
        apply Z.pow_le_mono_r; lia. }
    rewrite Hd. now exists false.
Qed.

(** ** Splitting and case *)

Lemma toLowerCase_fixed (s : string) :
  (forall c, char_in c s -> lower c = c) -> toLowerCase s = s.
Proof.
  induction s as [|c s IH]; intros H; [reflexivity|]. cbn [toLowerCase].
  rewrite (H c (or_introl eq_refl)), IH; [reflexivity|]. intros d Hd. apply H. now right.
Qed.

Lemma split_no_sep (sep : ascii) (s : string) : ~ char_in sep s -> split sep s = [s].
Proof.
  induction s as [|c s IH]; intros H; [reflexivity|]. cbn [split].
  destruct (Ascii.eqb_spec c sep) as [->|Hne]; [exfalso; apply H; now left|].
  rewrite IH; [reflexivity|]. intros Hs. apply H. now right.
Qed.

Lemma split_app_sep (sep : ascii) (a b : string) :
  ~ char_in sep a -> split sep (a +:+ String sep b) = a :: split sep b.
Proof.
  induction a as [|c a IH]; intros H.
  - change (split sep (String sep b) = "" :: split sep b)%string. cbn [split].
    now rewrite Ascii.eqb_refl.
  - change (split sep (String c (a +:+ String sep b)) = String c a :: split sep b).
    cbn [split]. destruct (Ascii.eqb_spec c sep) as [->|Hne]; [exfalso; apply H; now left|].
    rewrite IH; [reflexivity|]. intros Hs. apply H. now right.
Qed.

Lemma lower_e (c : ascii) : lower c = "e"%char -> c = "e"%char \/ c = "E"%char.
Proof.
  destruct c as [[] [] [] [] [] [] [] []]; vm_compute; intros H; try discriminate H; auto.
Qed.

Lemma coefficient_char_facts (c : ascii) :
  is_digit c = true \/ c = "."%char \/ c = "-"%char \/ c = "+"%char ->
  lower c = c /\ c <> "e"%char.
Proof.
  intros [H | [-> | [-> | ->]]]; try (split; [reflexivity | discriminate]).
  split; [apply (digit_facts c H)|]. intros ->. discriminate H.
Qed.

Lemma sign_or_digit_no_point (a : string) : sign_or_digit a -> ~ char_in "." a.
Proof. intros H Hc. destruct (H _ Hc) as [E|E]; discriminate E. Qed.

Lemma digit_string_no_point (f : string) : digit_string f -> ~ char_in "." f.
Proof. intros H Hc. apply H in Hc. discriminate Hc. Qed.

Lemma upper_upper (c : ascii) : upper (upper c) = upper c /\ upper (lower c) = upper c.
Proof. destruct c as [[] [] [] [] [] [] [] []]; vm_compute; auto. Qed.

Lemma toUpperCase_idem (s : string) :
  toUpperCase (toUpperCase s) = toUpperCase s
  /\ toUpperCase (toLowerCase s) = toUpperCase s.
Proof.
  induction s as [|c s [IH1 IH2]]; [now split|]. cbn [toUpperCase toLowerCase].
  destruct (upper_upper c) as [-> ->]. now rewrite IH1, IH2.
Qed.

(** ** Exponents as numbers

    For the exponents [k] from 1 to 400, which cover every number: the
    sign [e / |e|] is [-1] exactly for [e = -k], and the arrays of holes
    joined by ["0"] have the lengths the algorithm expects.  Checked by
    running the arithmetic on all of them. *)

Lemma exponent_negative_check :
  forallb (fun k => strict_eq (div (ofZ (- k)) (Math_abs (ofZ (- k)))) (ofZ (-1))
                    && match Array_join_zero (Math_abs (ofZ (- k))) with
                       | Some z => String.eqb z (zeros (Z.to_nat (k - 1)))
                       | None => false
                       end)
          (seqZ 1 400) = true.
Proof. vm_compute. reflexivity. Qed.

Lemma exponent_positive_check :
  forallb (fun k => negb (strict_eq (div (ofZ k) (Math_abs (ofZ k))) (ofZ (-1)))
                    && match Array_join_zero (add (Math_abs (ofZ k)) (ofZ 1)) with
                       | Some z => String.eqb z (zeros (Z.to_nat k))
                       | None => false
                       end)
          (seqZ 1 400) = true.
Proof. vm_compute. reflexivity. Qed.

Lemma exponent_negative (k : Z) :
  1 <= k <= 400 ->
  strict_eq (div (ofZ (- k)) (Math_abs (ofZ (- k)))) (ofZ (-1)) = true
  /\ Array_join_zero (Math_abs (ofZ (- k))) = Some (zeros (Z.to_nat (k - 1))).
Proof.
  intros Hk. pose proof exponent_negative_check as H.
  rewrite forallb_forall in H. specialize (H k).
  rewrite andb_true_iff in H. destruct H as [H1 H2].
  { apply list_elem_of_In, elem_of_seqZ. lia. }
  split; [exact H1|].
  destruct (Array_join_zero _) as [z|]; [|discriminate H2].
  apply String.eqb_eq in H2. now subst z.
Qed.

Lemma exponent_positive (k : Z) :
  1 <= k <= 400 ->
  strict_eq (div (ofZ k) (Math_abs (ofZ k))) (ofZ (-1)) = false
  /\ Array_join_zero (add (Math_abs (ofZ k)) (ofZ 1)) = Some (zeros (Z.to_nat k)).
Proof.
  intros Hk. pose proof exponent_positive_check as H.
  rewrite forallb_forall in H. specialize (H k).
  rewrite andb_true_iff in H. destruct H as [H1 H2].
  { apply list_elem_of_In, elem_of_seqZ. lia. }
  split; [now apply negb_true_iff in H1|].
  destruct (Array_join_zero _) as [z|]; [|discriminate H2].
  apply String.eqb_eq in H2. now subst z.
Qed.

(** [Math.pow(10, t)] is finite and positive for every count that
    [getPrecision] can return. *)
Lemma Math_pow10_check :
  forallb (fun t => positive_finite (Math_pow10 t)) (List.seq 0 309) = true.
Proof. vm_compute. reflexivity. Qed.

Lemma Math_pow10_finite (t : nat) : (t <= 308)%nat -> positive_finite (Math_pow10 t) = true.
Proof.
  intros Ht. assert (H := Math_pow10_check). rewrite forallb_forall in H.
  apply H. apply in_seq. lia.
Qed.

(** ** Numbers: exact results *)




Lemma valid_finite_bounded (s : bool) (M : positive) (E : Z) :
  valid_binary prec emax (S754_finite s M E) = true -> bounded prec emax M E = true.
Proof. exact (fun H => H). Qed.







(** ** Numbers: products and quotients of integers *)

Lemma digits2_pos_mono (a b : positive) :
  Zpos a <= Zpos b -> Zpos (digits2_pos a) <= Zpos (digits2_pos b).
Proof.
  intros H. pose proof (digits2_pos_bounds a) as [Hl _].
  pose proof (digits2_pos_bounds b) as [_ Hu].
  apply digits2_pos_le; [lia|]. lia.
Qed.




(** ** The decimal digits of an integer *)









(** ** The string of an integer *)


Section Integer.

Variables (k M : positive) (E : Z).
Hypothesis HE : E <= 0.
Hypothesis HM : Zpos M = Zpos k * 2 ^ (- E).




End Integer.





(** ** Rounding gives a binary64 value *)









(** * Further properties of the wrapper *)

(** ** handleResponse *)

(** X2.  What [handleResponse] hands to the callback.  An error is never
    falsy and never a bare string (a string is wrapped in an [Error]),
    and there is one only when the call failed or the body carries a
    truthy code.  A result is the body itself, and there is one only when
    the call did not fail and the body carries no truthy code. *)
Theorem handleResponse_outcome {P : Type} (error : value) (body : option (Body P)) :
  match handleResponse error body with
  | callback_error err =>
      truthy err = true /\ is_string err = false
      /\ (truthy error = true \/ ~ falsy_code body)
  | callback_result r =>
      r = body /\ truthy error = false /\ falsy_code body
  end.
Proof.
  unfold handleResponse, falsy_code.
  destruct body as [b|].
  - destruct (truthy (code b)) eqn:Hc.
    + cbn [truthy new_Error get_message]. destruct (includes _ _); cbn [truthy is_string];
        (split; [reflexivity | split; [reflexivity | right; congruence]]).
    + destruct (truthy error) eqn:Ht; [|auto].
      destruct error as [| | [] |n|s|m t]; try discriminate Ht;
        cbn [new_Error get_message]; destruct (includes _ _); cbn [truthy is_string]; auto.
  - destruct (truthy error) eqn:Ht; [|auto].
    destruct error as [| | [] |n|s|m t]; try discriminate Ht;
      cbn [new_Error get_message]; destruct (includes _ _); cbn [truthy is_string]; auto.
Qed.

(** The shape of a surfaced error: an object whose tag is set when its
    message carries a signature, or a truthy primitive other than a
    string, which has no message. *)
Lemma handleResponse_error_shape {P : Type} (error : value) (body : option (Body P))
  (err : value) :
  handleResponse error body = callback_error err ->
  (exists m t, err = VError m t /\ (includes m recoverableErrors = true -> t = true))
  \/ (truthy err = true /\ get_message err = VUndefined /\ is_string err = false).
Proof.
  unfold handleResponse.
  set (e0 := match body with Some b => _ | None => _ end).
  destruct (truthy e0) eqn:Ht; [|discriminate].
  intros [= <-].
  destruct e0 as [| | [] |n|s|m t]; try discriminate Ht; cbn [new_Error get_message].
  - right. now cbn.
  - right. cbn [includes]. now rewrite Ht.
  - left. destruct (includes (VStr s) recoverableErrors) eqn:Hi.
    + now exists (VStr s), true.
    + exists (VStr s), false. split; [reflexivity|]. congruence.
  - left. destruct (includes m recoverableErrors) eqn:Hi.
    + now exists m, true.
    + exists m, t. split; [reflexivity|]. congruence.
Qed.

Lemma handleResponse_error_truthy {P : Type} (error : value) (body : option (Body P))
  (err : value) :
  handleResponse error body = callback_error err -> truthy err = true.
Proof.
  intros H. apply handleResponse_error_shape in H as [(m & t & -> & _) | (H & _)];
    [reflexivity | exact H].
Qed.

(** X3.  Classifying is stable: an error that [handleResponse] has
    surfaced goes through [handleResponse] again unchanged, whatever
    body without a truthy code comes with it. *)
Theorem handleResponse_stable {P Q : Type} (error : value) (body : option (Body P))
  (err : value) (body' : option (Body Q)) :
  handleResponse error body = callback_error err ->
  falsy_code body' ->
  handleResponse err body' = callback_error err.
Proof.
  intros H Hb. apply handleResponse_error_shape in H.
  unfold handleResponse.
  replace (match body' with Some b => if truthy (code b) then _ else err | None => err end)
    with err.
  2:{ destruct body' as [b|]; [|reflexivity]. simpl in Hb. now rewrite Hb. }
  destruct H as [(m & t & -> & Ht) | (Ht & Hm & Hs)].
  - cbn [truthy get_message]. destruct (includes m recoverableErrors).
    + now rewrite Ht.
    + reflexivity.
  - rewrite Ht. destruct err as [| | | |s|m' t']; try discriminate Hs;
      cbn [get_message includes]; try reflexivity.
    cbn [get_message] in Hm. subst m'. reflexivity.
Qed.

Lemma handleResponse_stable_witness :
  handleResponse (P := unit) (VError (VStr "connect ETIMEDOUT") true)
    (Some {| code := VUndefined; msg := VUndefined; payload := tt |})
  = callback_error (VError (VStr "connect ETIMEDOUT") true).
Proof.
  apply (handleResponse_stable (P := unit) (Q := unit) (VStr "connect ETIMEDOUT") None).
  - reflexivity.
  - reflexivity.
Defined.

(** X4.  Two of the nine signatures are redundant: a message that
    includes ["SOCKETTIMEDOUT"] or ["ETIMEDOUT"] includes ["TIMEDOUT"],
    so the classifier decides the same with the seven others alone. *)
Theorem includes_redundant_signatures (str : value) :
  includes str recoverableErrors
  = includes str [ "TIMEDOUT"; "CONNRESET"; "CONNREFUSED"; "NOTFOUND";
                   "Error -1021"; "Response code 429"; "Response code 5" ]%string.
Proof.
  destruct str as [| | | |s|]; try reflexivity.
  unfold includes, recoverableErrors. cbn [existsb].
  assert (H1 := String_includes_trans s "TIMEDOUT" "SOCKETTIMEDOUT").
  assert (H2 := String_includes_trans s "TIMEDOUT" "ETIMEDOUT").
  destruct (String_includes s "SOCKETTIMEDOUT").
  { rewrite H1; [reflexivity | now exists "SOCKET"%string, ""%string | reflexivity]. }
  destruct (String_includes s "ETIMEDOUT").
  { rewrite H2; [reflexivity | now exists "E"%string, ""%string | reflexivity]. }
  cbn [orb]. now rewrite !orb_false_r.
Qed.

(** ** processError *)

(** The pattern [match] builds from the array of signatures has no
    syntax character, and is 110 characters long. *)
Example recoverableErrors_pattern :
  forallb (fun c => negb (is_syntax_character c))
          (list_ascii_of_string (Array_toString recoverableErrors)) = true
  /\ String.length (Array_toString recoverableErrors) = 110%nat.
Proof. split; reflexivity. Qed.

(** The call in the last line of [handleResponse] has a falsy error, for
    which [processError] returns [undefined]. *)
Lemma processError_falsy {E : Type} (AbortError RetryError : string -> E) (error : value) :
  truthy error = false -> processError AbortError RetryError error = Returns None.
Proof. intros H. unfold processError. now rewrite H. Qed.

(** [processError] on an error with a string for a message. *)
Lemma processError_message {E : Type} (AbortError RetryError : string -> E)
  (error : value) (m : string) :
  get_message error = VStr m ->
  processError AbortError RetryError error
  = Returns (Some (if String_includes m (Array_toString recoverableErrors)
                   then RetryError ("[binance.js] " +:+ m)
                   else AbortError ("[binance.js] " +:+ m))).
Proof.
  intros Hm. destruct error as [| | | | |msg t]; try discriminate Hm.
  cbn [get_message] in Hm. subst msg.
  unfold processError. cbn [truthy negb get_message ToString].
  rewrite regex_test_literal.
  destruct (String.eqb_spec m "") as [->|Hne]; [reflexivity|].
  cbn [negb]. now destruct (String_includes m _).
Qed.

(** X5.  [processError] passes the whole array of signatures to
    [match], which searches the message for the array's string, the nine
    signatures joined by commas.  So an error is a [RetryError] exactly
    when its message contains that whole list, and an [AbortError]
    otherwise, also when the message carries one of the signatures. *)
Theorem processError_classification {E : Type} (AbortError RetryError : string -> E)
  (error : value) (m : string) :
  get_message error = VStr m ->
  (occurs_in (Array_toString recoverableErrors) m ->
   processError AbortError RetryError error
   = Returns (Some (RetryError ("[binance.js] " +:+ m))))
  /\ (~ occurs_in (Array_toString recoverableErrors) m ->
      processError AbortError RetryError error
      = Returns (Some (AbortError ("[binance.js] " +:+ m)))).
Proof.
  intros Hm. rewrite (processError_message _ _ _ _ Hm).
  destruct (String_includes m _) eqn:Hi.
  - apply String_includes_occurs in Hi. split; [reflexivity | contradiction].
  - split; [|reflexivity]. intros Ho. apply String_includes_occurs in Ho. congruence.
Qed.

Lemma processError_classification_witness :
  processError (fun s => ("AbortError", s)%string) (fun s => ("RetryError", s)%string)
    (new_Error "read ETIMEDOUT")
  = Returns (Some ("AbortError", "[binance.js] read ETIMEDOUT")%string).
Proof.
  apply (proj2 (processError_classification (fun s => ("AbortError", s)%string)
                  (fun s => ("RetryError", s)%string) (new_Error "read ETIMEDOUT")
                  "read ETIMEDOUT" eq_refl)).
  intros H. apply String_includes_occurs in H. discriminate H.
Defined.

(** X6.  The two classifiers disagree on every realistic message: an
    error whose message carries a signature and is shorter than the 110
    characters of the joined list is tagged as retryable by
    [handleResponse] and is an [AbortError] for [processError]. *)
Theorem processError_aborts_tagged {E P : Type} (AbortError RetryError : string -> E)
  (m : string) (t : bool) :
  has_signature (VError (VStr m) t) ->
  (String.length m < 110)%nat ->
  handleResponse (P := P) (VError (VStr m) t) None = callback_error (VError (VStr m) true)
  /\ processError AbortError RetryError (VError (VStr m) t)
     = Returns (Some (AbortError ("[binance.js] " +:+ m))).
Proof.
  intros Hs Hl. split.
  - unfold handleResponse. cbn [truthy].
    apply includes_signature in Hs. now rewrite Hs.
  - rewrite (processError_message AbortError RetryError (VError (VStr m) t) m eq_refl).
    destruct (String_includes m _) eqn:Hi; [|reflexivity].
    apply String_includes_occurs, occurs_in_length in Hi.
    rewrite (proj2 recoverableErrors_pattern) in Hi. lia.
Qed.

Lemma processError_aborts_tagged_witness :
  handleResponse (P := unit) (VError (VStr "read ETIMEDOUT") false) None
  = callback_error (VError (VStr "read ETIMEDOUT") true)
  /\ processError (fun s => ("AbortError", s)%string) (fun s => ("RetryError", s)%string)
       (VError (VStr "read ETIMEDOUT") false)
     = Returns (Some ("AbortError", "[binance.js] read ETIMEDOUT")%string).
Proof.
  apply (processError_aborts_tagged (P := unit)).
  - exists "read ETIMEDOUT"%string, "ETIMEDOUT"%string.
    split; [reflexivity|]. split; [simpl; tauto|]. now exists "read "%string, ""%string.
  - simpl. lia.
Defined.

(** ** The completions behind handleResponse *)

(** X7.  An error that [handleResponse] surfaces reaches the caller's
    callback unchanged through the completion of every operation but
    [cancelOrder]: none of them inspects it, and none of them looks at
    the data that comes with it. *)
Theorem surfaced_error_reaches_callback {P : Type} (this : Trader) (error : value)
  (body : option (Body P)) (err : value)
  (descending order orderId : value) (trades : list aggTrade.t)
  (balances : list balance) (tickers : list ticker.t) (fills : list trade.t)
  (data : order_data) :
  handleResponse error body = callback_error err ->
  processResults descending err trades = callback_error err
  /\ setBalance this err balances = Returns (callback_error err)
  /\ setTicker this err tickers = callback_error err
  /\ setOrder err orderId = callback_error err
  /\ getOrder this order err fills = callback_error err
  /\ checkOrder err data = Returns (callback_error err).
Proof.
  intros H. apply handleResponse_error_truthy in H.
  unfold processResults, setBalance, setTicker, setOrder, getOrder, checkOrder.
  rewrite H. repeat split.
Qed.

Lemma surfaced_error_reaches_callback_witness :
  let err := VError (VStr "Error -1013: Invalid quantity.") false in
  let this := {| asset := "BTC"; currency := "USDT" |} in
  processResults VUndefined err [] = callback_error err
  /\ setBalance this err [] = Returns (callback_error err)
  /\ setTicker this err [] = callback_error err
  /\ setOrder err VUndefined = callback_error err
  /\ getOrder this (VStr "7") err [] = callback_error err
  /\ checkOrder err {| status := VUndefined; executedQty := VUndefined |}
     = Returns (callback_error err).
Proof.
  apply (surfaced_error_reaches_callback (P := unit) _ VUndefined
           (Some {| code := VNum (ofZ (-1013)); msg := VStr "Invalid quantity.";
                    payload := tt |})).
  vm_compute. reflexivity.
Defined.

(** X8.  Cancelling an order that was already filled.  When the body of
    the response carries a truthy code and a message that includes
    ["UNKNOWN_ORDER"], [handleResponse] surfaces an error and the
    completion of [cancelOrder] turns it into the result [true], whether
    or not the error was tagged as retryable. *)
Theorem cancelOrder_after_handleResponse {P D : Type} (this : Trader)
  (order error : value) (body : Body P) (m : string) (data : D) :
  truthy (code body) = true ->
  msg body = VStr m ->
  occurs_in "UNKNOWN_ORDER" m ->
  exists err,
    handleResponse error (Some body) = callback_error err
    /\ cancelOrder this order err data = Returns (callback_result true).
Proof.
  intros Hc Hm Ho. unfold handleResponse. rewrite Hc, Hm. cbn [truthy new_Error ToString].
  set (text := ("Error " +:+ ToString (code body) +:+ ": " +:+ m)%string).
  assert (Ht : String_includes text "UNKNOWN_ORDER" = true).
  { apply String_includes_occurs. subst text. now do 3 apply occurs_in_app_r. }
  change (get_message (new_Error text)) with (VStr text). unfold new_Error.
  destruct (includes (VStr text) recoverableErrors); eexists; (split; [reflexivity|]);
    unfold cancelOrder; cbn [truthy get_message]; now rewrite Ht.
Qed.

Lemma cancelOrder_after_handleResponse_witness :
  exists err,
    handleResponse VUndefined
      (Some {| code := VNum (ofZ (-2011)); msg := VStr "UNKNOWN_ORDER"; payload := tt |})
    = callback_error err
    /\ cancelOrder {| asset := "BTC"; currency := "USDT" |} (VStr "42") err tt
       = Returns (callback_result true).
Proof.
  apply (cancelOrder_after_handleResponse _ _ _ _ "UNKNOWN_ORDER"%string).
  - reflexivity.
  - reflexivity.
  - now exists ""%string, ""%string.
Defined.

(** X29.  What the completion of [cancelOrder] does with an error that
    [handleResponse] surfaced.  It never reports [false], the result
    that stands for a cancelled order.  It reports [true] exactly when
    the message is a string that includes ["UNKNOWN_ORDER"], hands the
    error on unchanged when the message is a string that does not, and
    throws a TypeError when the error has no string for a message (a
    number or [true] passed as the error has no message at all). *)
Theorem cancelOrder_after_failure {P D : Type} (this : Trader) (order error : value)
  (body : option (Body P)) (err : value) (data : D) :
  handleResponse error body = callback_error err ->
  match cancelOrder this order err data with
  | Returns (callback_result b) =>
      b = true /\ exists m, get_message err = VStr m /\ occurs_in "UNKNOWN_ORDER" m
  | Returns (callback_error e) =>
      e = err /\ exists m, get_message err = VStr m /\ ~ occurs_in "UNKNOWN_ORDER" m
  | Throws ex => ex = TypeError /\ forall m, get_message err <> VStr m
  | Diverges => False
  end.
Proof.
  intros H. apply handleResponse_error_truthy in H.
  unfold cancelOrder. rewrite H.
  destruct (get_message err) as [| | | |m|]; try (split; [reflexivity | discriminate]).
  destruct (String_includes m "UNKNOWN_ORDER") eqn:Hi.
  - split; [reflexivity|]. exists m. split; [reflexivity|].
    now apply String_includes_occurs.
  - split; [reflexivity|]. exists m. split; [reflexivity|].
    intros Ho. apply String_includes_occurs in Ho. congruence.
Qed.

Lemma cancelOrder_after_failure_witness :
  match cancelOrder {| asset := "BTC"; currency := "USDT" |} (VStr "42") (VNum (ofZ 5)) tt with
  | Returns (callback_result b) =>
      b = true /\ exists m, get_message (VNum (ofZ 5)) = VStr m
                            /\ occurs_in "UNKNOWN_ORDER" m
  | Returns (callback_error e) =>
      e = VNum (ofZ 5) /\ exists m, get_message (VNum (ofZ 5)) = VStr m
                                    /\ ~ occurs_in "UNKNOWN_ORDER" m
  | Throws ex => ex = TypeError /\ forall m, get_message (VNum (ofZ 5)) <> VStr m
  | Diverges => False
  end.
Proof.
  apply (cancelOrder_after_failure (P := unit) _ _ (VNum (ofZ 5)) None). reflexivity.
Defined.

(** X9.  [getPortfolio] never delivers an amount that is not a number:
    whenever its completion calls back with a portfolio, that portfolio
    is the asset's entry followed by the currency's, and neither amount
    is NaN.  (A balance that does not parse ends in a TypeError, see
    C7.) *)
Theorem setBalance_delivers_numbers (this : Trader) (err : value)
  (balances : list balance) (portfolio : list portfolio_entry) :
  setBalance this err balances = Returns (callback_result portfolio) ->
  exists a c,
    portfolio = [ {| name := asset this; amount := a |};
                  {| name := currency this; amount := c |} ]
    /\ isNaN a = false /\ isNaN c = false /\ truthy err = false.
Proof.
  unfold setBalance. destruct (truthy err); [discriminate|].
  destruct (find_balance (asset this) balances) as [a|]; [|discriminate].
  destruct (find_balance (currency this) balances) as [c|]; [|discriminate].
  destruct (isNaN (parseFloat (free a))) eqn:Ha; [discriminate|].
  destruct (isNaN (parseFloat (free c))) eqn:Hc; [discriminate|].
  intros [= <-]. now exists (parseFloat (free a)), (parseFloat (free c)).
Qed.

Lemma setBalance_delivers_numbers_witness :
  exists a c,
    [ {| name := "BTC"; amount := num "0.001" |};
      {| name := "USDT"; amount := num "12.5" |} ]
    = [ {| name := "BTC"; amount := a |}; {| name := "USDT"; amount := c |} ]
    /\ isNaN a = false /\ isNaN c = false /\ truthy VUndefined = false.
Proof.
  apply (setBalance_delivers_numbers {| asset := "BTC"; currency := "USDT" |} VUndefined
           [ {| balance_asset := "BTC"; free := VStr "0.00100000" |};
             {| balance_asset := "USDT"; free := VStr "12.5" |} ]).
  vm_compute. reflexivity.
Defined.

(** ** getOrder *)

Lemma filter_none {A : Type} (f : A -> bool) (l : list A) :
  (forall x, In x l -> f x = false) -> List.filter f l = [].
Proof.
  induction l as [|a l IH]; intros H; [reflexivity|]. cbn [List.filter].
  rewrite (H a (or_introl eq_refl)). apply IH. intros x Hx. apply H. now right.
Qed.

(** The result of [getOrder] when some trade has the order id: the state
    the loop ends in. *)
Lemma getOrder_fold (this : Trader) (order err : value) (data : list trade.t) :
  truthy err = false ->
  List.filter (fun t => loose_eq (trade.orderId t) order) data <> [] ->
  exists price amount date fees,
    List.fold_left each_trade
      (List.filter (fun t => loose_eq (trade.orderId t) order) data) (ofZ 0, ofZ 0, 0, ∅)
    = (price, amount, date, fees)
    /\ getOrder this order err data
       = callback_result
           {| order.price := price; order.amount := amount; order.date := date;
              order.fees := fees;
              order.feePercent := feePercent_of this price amount fees |}.
Proof.
  intros He Hne. unfold getOrder. rewrite He.
  destruct (List.filter _ data) as [|f fills] eqn:Hf; [congruence|].
  destruct (fold_left each_trade (f :: fills) _) as [[[price amount] date] fees].
  now exists price, amount, date, fees.
Qed.

(** X10.  [getOrder] reports ["Trades not found"] exactly when no trade
    of the list has the order id under [==]. *)
Theorem getOrder_not_found (this : Trader) (order err : value) (data : list trade.t) :
  truthy err = false ->
  getOrder this order err data = callback_error (new_Error "Trades not found")
  <-> forall t, In t data -> loose_eq (trade.orderId t) order = false.
Proof.
  intros He. split.
  - intros H t Ht. destruct (loose_eq (trade.orderId t) order) eqn:Hl; [|reflexivity].
    destruct (getOrder_fold this order err data He) as (p & a & d & fs & _ & E).
    + intros Hf. assert (Hin : In t (List.filter (fun t => loose_eq (trade.orderId t) order) data))
        by (apply List.filter_In; now split).
      now rewrite Hf in Hin.
    + congruence.
  - intros H. unfold getOrder. now rewrite He, (filter_none _ data H).
Qed.

Lemma getOrder_not_found_witness :
  getOrder {| asset := "BTC"; currency := "USDT" |} (VStr "8") VUndefined
    [fill_X "100"; fill_X "102"]
  = callback_error (new_Error "Trades not found").
Proof.
  apply getOrder_not_found; [reflexivity|].
  intros t [<-|[<-|[]]]; reflexivity.
Defined.

(** X11.  The trades of other orders change nothing: a run of trades
    none of which has the order id can be taken out of the list, wherever
    it stands. *)
Theorem getOrder_other_orders (this : Trader) (order err : value)
  (l1 other l2 : list trade.t) :
  (forall t, In t other -> loose_eq (trade.orderId t) order = false) ->
  getOrder this order err (l1 ++ other ++ l2) = getOrder this order err (l1 ++ l2).
Proof.
  intros H. unfold getOrder. rewrite !List.filter_app.
  now rewrite (filter_none _ other H).
Qed.

Lemma getOrder_other_orders_witness :
  getOrder {| asset := "BTC"; currency := "USDT" |} (VNum (num "7")) VUndefined
    ([fill_X "100"]
     ++ [ {| trade.orderId := VNum (num "8"); trade.time := 5;
             trade.price := VStr "1"; trade.qty := VStr "1";
             trade.commission := VStr "1"; trade.commissionAsset := "BNB" |} ]
     ++ [fill_X "102"])
  = getOrder {| asset := "BTC"; currency := "USDT" |} (VNum (num "7")) VUndefined
      ([fill_X "100"] ++ [fill_X "102"]).
Proof.
  apply getOrder_other_orders. intros t [<-|[]]. reflexivity.
Defined.

(** X12.  The date of the order is the time of the last trade of the
    list that has the order id, last in the order of the list, whatever
    the times of the others. *)
Theorem getOrder_date (this : Trader) (order err : value) (before after : list trade.t)
  (f : trade.t) :
  truthy err = false ->
  loose_eq (trade.orderId f) order = true ->
  (forall t, In t after -> loose_eq (trade.orderId t) order = false) ->
  exists o, getOrder this order err (before ++ f :: after) = callback_result o
            /\ order.date o = trade.time f.
Proof.
  intros He Hf Ha.
  assert (Hfl : List.filter (fun t => loose_eq (trade.orderId t) order) (before ++ f :: after)
                = List.filter (fun t => loose_eq (trade.orderId t) order) before ++ [f]).
  { rewrite List.filter_app. cbn [List.filter]. rewrite Hf.
    now rewrite (filter_none _ after Ha). }
  destruct (getOrder_fold this order err (before ++ f :: after) He)
    as (price & amount & date & fees & Hfold & ->).
  { rewrite Hfl. now destruct (List.filter _ before). }
  eexists. split; [reflexivity|]. cbn [order.date].
  rewrite Hfl, fold_left_app in Hfold. cbn [fold_left] in Hfold.
  destruct (fold_left each_trade _ _) as [[[p a] d] fs].
  unfold each_trade in Hfold. now injection Hfold as _ _ <- _.
Qed.

Lemma getOrder_date_witness :
  exists o,
    getOrder {| asset := "BTC"; currency := "USDT" |} (VNum (num "7")) VUndefined
      ([ {| trade.orderId := VNum (num "7"); trade.time := 2000;
            trade.price := VStr "100"; trade.qty := VStr "1";
            trade.commission := VStr "0.1"; trade.commissionAsset := "X" |} ]
       ++ {| trade.orderId := VNum (num "7"); trade.time := 1000;
             trade.price := VStr "102"; trade.qty := VStr "1";
             trade.commission := VStr "0.1"; trade.commissionAsset := "X" |} :: [])
    = callback_result o
    /\ order.date o = 1000.
Proof.
  apply (getOrder_date {| asset := "BTC"; currency := "USDT" |} (VNum (num "7")) VUndefined
           _ []
           {| trade.orderId := VNum (num "7"); trade.time := 1000;
              trade.price := VStr "102"; trade.qty := VStr "1";
              trade.commission := VStr "0.1"; trade.commissionAsset := "X" |}).
  - reflexivity.
  - reflexivity.
  - intros t [].
Defined.

(** Once the average price is NaN it stays NaN, and so does the
    amount. *)
Lemma fold_each_trade_NaN (fills : list trade.t) (amount : number) (date : Z)
  (fees : gmap string number) :
  exists amount' date' fees',
    fold_left each_trade fills (NaN, amount, date, fees) = (NaN, amount', date', fees').
Proof.
  revert amount date fees. induction fills as [|f fills IH]; intros amount date fees.
  - now exists amount, date, fees.
  - cbn [fold_left]. unfold each_trade at 2.
    change (mul NaN amount) with NaN. rewrite add_NaN_l, div_NaN_l. apply IH.
Qed.

Lemma fold_each_trade_amount_NaN (fills : list trade.t) (price : number) (date : Z)
  (fees : gmap string number) :
  exists price' date' fees',
    fold_left each_trade fills (price, NaN, date, fees) = (price', NaN, date', fees').
Proof.
  revert price date fees. induction fills as [|f fills IH]; intros price date fees.
  - now exists price, date, fees.
  - cbn [fold_left]. unfold each_trade at 2. rewrite add_NaN_l. apply IH.
Qed.

(** X13.  Nothing validates the fills.  If one trade of the order has a
    price or a quantity that does not convert to a number, [getOrder]
    still calls back with a result, whose average price is NaN; when it
    is the quantity, the amount is NaN as well.  The other fills, before
    and after, do not repair it. *)
Theorem getOrder_unparsable_fill (this : Trader) (order err : value) (data : list trade.t)
  (f : trade.t) :
  truthy err = false ->
  In f data ->
  loose_eq (trade.orderId f) order = true ->
  exists o, getOrder this order err data = callback_result o
    /\ (isNaN (ToNumber (trade.price f)) = true \/ isNaN (ToNumber (trade.qty f)) = true ->
        order.price o = NaN)
    /\ (isNaN (ToNumber (trade.qty f)) = true -> order.amount o = NaN).
Proof.
  intros He Hin Hf.
  assert (Hfin : In f (List.filter (fun t => loose_eq (trade.orderId t) order) data)).
  { apply List.filter_In. now split. }
  destruct (getOrder_fold this order err data He)
    as (price & amount & date & fees & Hfold & ->).
  { intros E. now rewrite E in Hfin. }
  eexists. split; [reflexivity|]. cbn [order.price order.amount].
  apply in_split in Hfin as (l1 & l2 & Hl). rewrite Hl, fold_left_app in Hfold.
  cbn [fold_left] in Hfold.
  destruct (fold_left each_trade l1 _) as [[[p a] d] fs].
  unfold each_trade at 2 in Hfold.
  split.
  - intros Hn.
    assert (Hm : mul (ToNumber (trade.price f)) (ToNumber (trade.qty f)) = NaN).
    { destruct Hn as [Hn|Hn]; apply isNaN_eq in Hn; rewrite Hn;
        [reflexivity | apply mul_NaN_r]. }
    rewrite Hm, add_NaN_r, div_NaN_l in Hfold.
    destruct (fold_each_trade_NaN l2 (add a (ToNumber (trade.qty f))) (trade.time f)
                (if fee_truthy fs (trade.commissionAsset f)
                 then <[trade.commissionAsset f :=
                          add (fee_number fs (trade.commissionAsset f))
                              (ToNumber (trade.commission f))]> fs
                 else <[trade.commissionAsset f := ToNumber (trade.commission f)]> fs))
      as (a' & d' & fs' & E).
    rewrite E in Hfold. now injection Hfold as <- _ _ _.
  - intros Hn. apply isNaN_eq in Hn. rewrite Hn, add_NaN_r in Hfold.
    destruct (fold_each_trade_amount_NaN l2
                (div (add (mul p a) (mul (ToNumber (trade.price f)) NaN)) (add NaN a))
                (trade.time f)
                (if fee_truthy fs (trade.commissionAsset f)
                 then <[trade.commissionAsset f :=
                          add (fee_number fs (trade.commissionAsset f))
                              (ToNumber (trade.commission f))]> fs
                 else <[trade.commissionAsset f := ToNumber (trade.commission f)]> fs))
      as (p' & d' & fs' & E).
    rewrite E in Hfold. now injection Hfold as _ <- _ _.
Qed.

Lemma getOrder_unparsable_fill_witness :
  exists o,
    getOrder {| asset := "BTC"; currency := "USDT" |} (VNum (num "7")) VUndefined
      [ fill_X "100";
        {| trade.orderId := VNum (num "7"); trade.time := 1;
           trade.price := VStr "102"; trade.qty := VStr "n/a";
           trade.commission := VStr "0.1"; trade.commissionAsset := "X" |};
        fill_X "104" ]
    = callback_result o
    /\ (isNaN (ToNumber (VStr "102")) = true \/ isNaN (ToNumber (VStr "n/a")) = true ->
        order.price o = NaN)
    /\ (isNaN (ToNumber (VStr "n/a")) = true -> order.amount o = NaN).
Proof.
  apply (getOrder_unparsable_fill {| asset := "BTC"; currency := "USDT" |}
           (VNum (num "7")) VUndefined _
           {| trade.orderId := VNum (num "7"); trade.time := 1;
              trade.price := VStr "102"; trade.qty := VStr "n/a";
              trade.commission := VStr "0.1"; trade.commissionAsset := "X" |}).
  - reflexivity.
  - right. now left.
  - reflexivity.
Defined.

(** X14.  The order id may be given as a number or as its decimal
    string: against trades whose ids are numbers, [getOrder] called with
    the digits of [z] finds the same trades, and so gives the same
    result, as called with the number [z]. *)
Theorem getOrder_id_as_string (this : Trader) (z : Z) (err : value) (data : list trade.t) :
  0 <= z ->
  (forall t, In t data -> exists n, trade.orderId t = VNum n) ->
  getOrder this (VStr (digits10 z)) err data = getOrder this (VNum (ofZ z)) err data.
Proof.
  intros Hz Hn. unfold getOrder.
  rewrite (List.filter_ext_in (fun t => loose_eq (trade.orderId t) (VStr (digits10 z)))
             (fun t => loose_eq (trade.orderId t) (VNum (ofZ z)))); [reflexivity|].
  intros t Ht. destruct (Hn t Ht) as (n & ->).
  cbn [loose_eq loose_eq_primitive ToNumber]. now rewrite StringToNumber_digits10.
Qed.

Lemma getOrder_id_as_string_witness :
  getOrder {| asset := "BTC"; currency := "USDT" |} (VStr (digits10 7)) VUndefined
    [fill_X "100"; fill_X "102"]
  = getOrder {| asset := "BTC"; currency := "USDT" |} (VNum (ofZ 7)) VUndefined
      [fill_X "100"; fill_X "102"].
Proof.
  apply getOrder_id_as_string; [lia|].
  intros t [<-|[<-|[]]]; now exists (num "7").
Defined.

(** X1. Fees paid in the quote currency alone: the branch meant for them
    tests [fees.currency], the property named "currency", which is not
    there, so the fee is taken to be the base rate of 0.1 percent. *)
Theorem feePercent_quote_currency (this : Trader) (price amount c : number) :
  currency this <> "BNB"%string ->
  currency this <> asset this ->
  currency this <> "currency"%string ->
  feePercent_of this price amount {[ currency this := c ]} = num "0.1".
Proof.
  intros Hbnb Hasset Hcur. unfold feePercent_of, fee_truthy.
  rewrite map_size_singleton. cbn [Nat.eqb].
  rewrite !lookup_singleton_ne by congruence. reflexivity.
Qed.

Lemma feePercent_quote_currency_witness :
  feePercent_of {| asset := "BTC"; currency := "USDT" |} (num "100") (num "2")
    {[ "USDT"%string := num "0.2" ]} = num "0.1".
Proof.
  apply (feePercent_quote_currency {| asset := "BTC"; currency := "USDT" |});
    discriminate.
Defined.

(** X30.  A commission of zero counts as no fee entry: when the fees
    hold one currency, whichever it is, and its sum is zero (or NaN),
    each test of [fees[...]] is falsy and the fee is taken to be the
    base rate of 0.1 percent. *)
Theorem feePercent_zero_commission (this : Trader) (price amount c : number)
  (k : string) :
  truthy_number c = false ->
  feePercent_of this price amount {[ k := c ]} = num "0.1".
Proof.
  intros Hc.
  assert (H : forall k', fee_truthy ({[ k := c ]} : gmap string number) k' = false).
  { intros k'. unfold fee_truthy. destruct (decide (k = k')) as [->|Hne].
    - now rewrite lookup_singleton_eq.
    - now rewrite lookup_singleton_ne. }
  unfold feePercent_of. rewrite !H. now destruct (Nat.eqb _ 1).
Qed.

Lemma feePercent_zero_commission_witness :
  feePercent_of {| asset := "BTC"; currency := "USDT" |} (num "100") (num "2")
    {[ "BNB"%string := num "0" ]} = num "0.1".
Proof.
  apply (feePercent_zero_commission {| asset := "BTC"; currency := "USDT" |}).
  reflexivity.
Defined.

(** ** round *)

Lemma getPrecision_le_308 (t : number) (p : nat) :
  getPrecision t = Some p -> (p <= 308)%nat.
Proof.
  unfold getPrecision, getPrecision_fuel.
  destruct (negb (isFinite t)); [intros [= <-]; lia|].
  replace 310%nat with (309 + 1)%nat by reflexivity.
  rewrite getPrecision_while_split, getPrecision_e_overflows, getPrecision_while_Infinity.
  destruct (getPrecision_while 309 t (ofZ 1) 0) as [r|] eqn:Hr; [|discriminate].
  intros [= <-]. apply getPrecision_while_bound in Hr. lia.
Qed.

(** X15.  Nothing validates the amount.  An amount that does not
    convert to a finite number (it is missing, it is not numeric, it is
    infinite) is not refused: [round] returns its name, ["NaN"],
    ["Infinity"] or ["-Infinity"], whatever the tick size. *)
Theorem round_not_finite (amount : value) (tickSize : number) (t : nat) :
  getPrecision tickSize = Some t ->
  isFinite (ToNumber amount) = false ->
  round amount tickSize = Returns (Number_toString (ToNumber amount)).
Proof.
  intros Hp Hf. unfold round. rewrite Hp.
  assert (HP := Math_pow10_finite t (getPrecision_le_308 _ _ Hp)).
  destruct (Math_pow10 t) as [| | |[] m e]; try discriminate HP.
  destruct (ToNumber amount) as [|[]| |]; try discriminate Hf; reflexivity.
Qed.

Lemma round_not_finite_witness :
  round VUndefined (num "0.01") = Returns "NaN"%string.
Proof. apply (round_not_finite VUndefined (num "0.01") 2); vm_compute; reflexivity. Defined.

(** X16.  An amount below one unit of the precision rounds to ["0"]:
    when the scaled amount [amount * 10^t], as computed, is at least 0
    and less than 1, the result is the string ["0"] (also for [-0]). *)
Theorem round_below_one_tick (amount : value) (tickSize : number) (t : nat) :
  getPrecision tickSize = Some t ->
  ge (mul (ToNumber amount) (Math_pow10 t)) (ofZ 0) = true ->
  less_than (mul (ToNumber amount) (Math_pow10 t)) (ofZ 1) = true ->
  round amount tickSize = Returns "0"%string.
Proof.
  intros Hp H0 H1. unfold round. rewrite Hp.
  destruct (Math_floor_below_one _ (mul_fits _ _) H0 H1) as (s & ->).
  assert (HP := Math_pow10_finite t (getPrecision_le_308 _ _ Hp)).
  destruct (Math_pow10 t) as [| | |[] m e]; try discriminate HP.
  reflexivity.
Qed.

Lemma round_below_one_tick_witness :
  round (VStr "0.004") (num "0.01") = Returns "0"%string.
Proof. apply (round_below_one_tick (VStr "0.004") (num "0.01") 2); vm_compute; reflexivity. Defined.

(** ** scientificToDecimal *)

Lemma scientific_pattern_marker (s : string) :
  regex_test scientific_pattern s = true -> char_in "e" s \/ char_in "E" s.
Proof.
  intros H. apply regex_test_inv in H as (pre & mid & post & -> & H).
  unfold scientific_pattern in H.
  apply regex_full_Cat_inv in H as (s1 & s2 & -> & _ & H).
  apply regex_full_Cat_inv in H as (s3 & s4 & -> & _ & H).
  apply regex_full_Cat_inv in H as (s5 & s6 & -> & _ & H).
  apply regex_full_Cat_inv in H as (s7 & s8 & -> & H & _).
  apply regex_full_Chr_inv in H as (c & -> & Hc).
  apply Ascii.eqb_eq, lower_e in Hc.
  assert (Hin : forall d, d = c ->
            char_in d (pre +:+ (s1 +:+ s3 +:+ s5 +:+ String c "" +:+ s8) +:+ post)).
  { intros d ->. rewrite !char_in_app. right. left. right. right. right. left. now left. }
  destruct Hc as [Hc|Hc]; [left | right]; now apply Hin.
Qed.

(** X17.  [scientificToDecimal] returns the string of its argument
    unchanged exactly when that string has no exponent marker; a string
    with a marker is always rewritten, or the call throws. *)
Theorem scientificToDecimal_plain (x : number) :
  scientificToDecimal x = Returns (Number_toString x)
  <-> no_exponent_marker (Number_toString x).
Proof.
  split.
  - apply scientificToDecimal_no_exponent.
  - intros [He HE]. unfold scientificToDecimal.
    destruct (regex_test scientific_pattern (Number_toString x)) eqn:Ht; [|reflexivity].
    apply scientific_pattern_marker in Ht. tauto.
Qed.

(** [scientificToDecimal] on a string in exponent notation, with the
    test of the pattern, the split at the marker and the arithmetic on
    the exponent resolved: what is left is the handling of the
    coefficient. *)
Lemma scientificToDecimal_exponent (x : number) (pre ds : string) (neg : bool) (k : Z) :
  Number_toString x = (pre +:+ ds) +:+ "e" +:+ (if neg then "-" else "+") +:+ digits10 k ->
  coefficient_chars (pre +:+ ds) -> ds <> ""%string -> digit_string ds ->
  1 <= k <= 400 ->
  scientificToDecimal x =
  if neg
  then Returns ("0" +:+ "." +:+ zeros (Z.to_nat (k - 1)) +:+ join (split "." (pre +:+ ds)))
  else match split "." (pre +:+ ds) with
       | _ :: String _ _ :: _ => Throws TypeError
       | _ => Returns (join (split "." (pre +:+ ds)) +:+ zeros (Z.to_nat k))
       end.
Proof.
  intros Hstr Hco Hne Hds Hk.
  set (co := (pre +:+ ds)%string) in *.
  set (es := ((if neg then "-" else "+") +:+ digits10 k)%string) in *.
  assert (Hes : forall c, char_in c es -> lower c = c /\ c <> "e"%char).
  { intros c Hc. apply coefficient_char_facts. subst es. apply char_in_app in Hc as [Hc|Hc].
    - destruct neg; destruct Hc as [->|[]]; auto.
    - left. now apply digits10_digits in Hc. }
  assert (Hcc : forall c, char_in c co -> lower c = c /\ c <> "e"%char).
  { intros c Hc. apply coefficient_char_facts. destruct (Hco c Hc) as [H|[H|H]]; auto. }
  unfold scientificToDecimal. rewrite Hstr.
  assert (Ht : regex_test scientific_pattern (co +:+ "e" +:+ es) = true).
  { subst co. rewrite string_app_assoc, <- (string_app_nil_r (ds +:+ _)).
    apply regex_test_intro. unfold scientific_pattern.
    apply regex_full_Cat; [now apply regex_full_Plus_Chr|].
    apply (regex_full_Cat _ _ "" ("e" +:+ es)); [reflexivity|].
    apply (regex_full_Cat _ _ "" ("e" +:+ es)); [reflexivity|].
    apply (regex_full_Cat _ _ "e" es); [reflexivity|]. subst es.
    apply regex_full_Cat.
    - now destruct neg.
    - apply regex_full_Plus_Chr; [apply digits10_nonempty | apply digits10_digits]. }
  rewrite Ht.
  assert (Hlow : toLowerCase (co +:+ "e" +:+ es) = co +:+ "e" +:+ es).
  { apply toLowerCase_fixed. intros c Hc. apply char_in_app in Hc as [Hc|[->|Hc]].
    - now apply Hcc.
    - reflexivity.
    - now apply Hes. }
  rewrite Hlow.
  assert (Hsplit : split "e" (co +:+ "e" +:+ es) = [co; es]).
  { change (co +:+ "e" +:+ es) with (co +:+ String "e" es).
    rewrite split_app_sep, split_no_sep; [reflexivity | |].
    - intros Hc. now apply Hes in Hc.
    - intros Hc. now apply Hcc in Hc. }
  rewrite Hsplit. cbn [List.last List.removelast].
  subst es. rewrite StringToNumber_exponent by lia.
  destruct neg; cbn [cond_Zopp].
  - destruct (exponent_negative k Hk) as [-> ->]. reflexivity.
  - destruct (exponent_positive k Hk) as [-> ->]. reflexivity.
Qed.

Lemma coefficient_with_fraction (a f : string) :
  sign_or_digit a -> digit_string f ->
  coefficient_chars ((a +:+ ".") +:+ f) /\ split "." ((a +:+ ".") +:+ f) = [a; f].
Proof.
  intros Ha Hf. split.
  - intros c Hc. apply char_in_app in Hc as [Hc|Hc].
    + apply char_in_app in Hc as [Hc|[->|[]]]; [|auto].
      destruct (Ha c Hc); auto.
    + left. now apply Hf.
  - rewrite string_app_assoc. change ("." +:+ f) with (String "." f).
    rewrite split_app_sep by now apply sign_or_digit_no_point.
    now rewrite split_no_sep by now apply digit_string_no_point.
Qed.

(** X18.  A number whose string is in exponent notation with a
    fraction in the coefficient and a positive exponent, as
    [1.5e+21] is, makes [scientificToDecimal] throw a TypeError: the
    branch assigns to the constant [l]. *)
Theorem scientificToDecimal_fraction_positive_exponent (x : number) (a f : string) (k : Z) :
  Number_toString x = a +:+ "." +:+ f +:+ "e+" +:+ digits10 k ->
  sign_or_digit a -> digit_string f -> f <> ""%string -> 1 <= k <= 400 ->
  scientificToDecimal x = Throws TypeError.
Proof.
  intros Hstr Ha Hf Hne Hk.
  destruct (coefficient_with_fraction a f Ha Hf) as [Hco Hsp].
  rewrite (scientificToDecimal_exponent x (a +:+ ".") f false k); try assumption.
  - rewrite Hsp. now destruct f.
  - rewrite Hstr, !string_app_assoc. reflexivity.
Qed.

Lemma scientificToDecimal_fraction_positive_exponent_witness :
  scientificToDecimal (num "1.5e21") = Throws TypeError.
Proof.
  apply (scientificToDecimal_fraction_positive_exponent (num "1.5e21") "1" "5" 21).
  - vm_compute. reflexivity.
  - intros c [->|[]]. now left.
  - intros c [->|[]]. reflexivity.
  - discriminate.
  - lia.
Defined.

(** X19.  A number whose string is in exponent notation with a
    fraction in the coefficient and a negative exponent [-k] is written
    as ["0."], [k - 1] zeros, and then the characters of the coefficient
    without the point.  For a positive number that is its plain decimal
    notation.  For a negative number the minus sign is among those
    characters, so it lands after the zeros: [-1.5e-7] becomes
    ["0.000000-15"]. *)
Theorem scientificToDecimal_fraction_negative_exponent (x : number) (a f : string) (k : Z) :
  Number_toString x = a +:+ "." +:+ f +:+ "e-" +:+ digits10 k ->
  sign_or_digit a -> digit_string f -> f <> ""%string -> 1 <= k <= 400 ->
  scientificToDecimal x = Returns ("0." +:+ zeros (Z.to_nat (k - 1)) +:+ a +:+ f).
Proof.
  intros Hstr Ha Hf Hne Hk.
  destruct (coefficient_with_fraction a f Ha Hf) as [Hco Hsp].
  rewrite (scientificToDecimal_exponent x (a +:+ ".") f true k); try assumption.
  - rewrite Hsp. reflexivity.
  - rewrite Hstr, !string_app_assoc. reflexivity.
Qed.

Lemma scientificToDecimal_fraction_negative_exponent_witness :
  scientificToDecimal (num "-1.5e-7") = Returns "0.000000-15"%string.
Proof.
  apply (scientificToDecimal_fraction_negative_exponent (num "-1.5e-7") "-1" "5" 7).
  - vm_compute. reflexivity.
  - intros c [->|[->|[]]]; [now right | now left].
  - intros c [->|[]]. reflexivity.
  - discriminate.
  - lia.
Defined.

(** X20.  A number whose string is in exponent notation with no
    fraction in the coefficient: for a positive exponent [k] the
    coefficient is followed by [k] zeros, for a negative exponent [-k] it
    is preceded by ["0."] and [k - 1] zeros (with the minus sign of a
    negative number misplaced as in X19). *)
Theorem scientificToDecimal_integer_coefficient (x : number) (a : string) (d : ascii)
  (neg : bool) (k : Z) :
  Number_toString x
  = a +:+ String d "" +:+ "e" +:+ (if neg then "-" else "+") +:+ digits10 k ->
  sign_or_digit a -> is_digit d = true -> 1 <= k <= 400 ->
  scientificToDecimal x =
  Returns (if neg then "0." +:+ zeros (Z.to_nat (k - 1)) +:+ a +:+ String d ""
           else a +:+ String d "" +:+ zeros (Z.to_nat k)).
Proof.
  intros Hstr Ha Hd Hk.
  assert (Hds : digit_string (String d "")) by (intros c [->|[]]; exact Hd).
  assert (Hco : coefficient_chars (a +:+ String d "")).
  { intros c Hc. apply char_in_app in Hc as [Hc|Hc].
    - destruct (Ha c Hc); auto.
    - left. now apply Hds. }
  assert (Hsp : split "." (a +:+ String d "") = [a +:+ String d ""]).
  { apply split_no_sep. intros Hc. apply char_in_app in Hc as [Hc|Hc].
    - now apply sign_or_digit_no_point in Hc.
    - now apply digit_string_no_point in Hc. }
  rewrite (scientificToDecimal_exponent x a (String d "") neg k);
    try assumption; try discriminate.
  - rewrite Hsp. destruct neg; [reflexivity|].
    unfold join. cbn [String.concat]. now rewrite string_app_assoc.
  - rewrite Hstr, !string_app_assoc. reflexivity.
Qed.

Lemma scientificToDecimal_integer_coefficient_witness :
  scientificToDecimal (num "1e21") = Returns "1000000000000000000000"%string.
Proof.
  apply (scientificToDecimal_integer_coefficient (num "1e21") "" "1" false 21).
  - vm_compute. reflexivity.
  - intros c [].
  - reflexivity.
  - lia.
Defined.

(** ** Rounding and validity against the market *)

Lemma round_no_exponent (amount : value) (tickSize : number) (s : string) :
  round amount tickSize = Returns s -> no_exponent_marker s.
Proof.
  unfold round. destruct (getPrecision tickSize); [|discriminate].
  apply scientificToDecimal_no_exponent.
Qed.

(** X21.  Whatever [roundAmount], [roundPrice] or [outbidPrice] returns
    is a string without exponent marker, and they return only when the
    constructor found the market of the pair. *)
Theorem market_rounding_plain (this_market : option market.t) (v isUp : value) (s : string) :
  roundAmount this_market v = Returns s
  \/ roundPrice this_market v = Returns s
  \/ outbidPrice this_market v isUp = Returns s ->
  no_exponent_marker s /\ this_market <> None.
Proof.
  unfold outbidPrice, roundAmount, roundPrice.
  destruct this_market as [m|]; [|intros [H|[H|H]]; discriminate H].
  intros [H|[H|H]]; (split; [|discriminate]); now apply round_no_exponent in H.
Qed.

Lemma market_rounding_plain_witness :
  no_exponent_marker "0.0000001"
  /\ Some {| market.pair := ("USDT", "BTC")%string;
             market.minimal := {| market.amount := num "0.0000001";
                                  market.price := num "0.01";
                                  market.order := num "10" |} |} <> None.
Proof.
  apply (market_rounding_plain _ (VNum (num "0.0000001234")) VUndefined).
  left. vm_compute. reflexivity.
Defined.

(** [outbidPrice] on a price given as a string: going down the price is
    converted to a number, going up the tick is appended to its text. *)
Example outbidPrice_string_price :
  let m := Some {| market.pair := ("USDT", "BTC")%string;
                   market.minimal := {| market.amount := num "0.000001";
                                        market.price := num "0.01";
                                        market.order := num "10" |} |} in
  outbidPrice m (VNum (num "100")) (VBool true) = Returns "100.01"%string
  /\ outbidPrice m (VStr "100") (VBool false) = Returns "99.99"%string
  /\ outbidPrice m (VStr "100") (VBool true) = Returns "1000.01"%string
  /\ outbidPrice m (VStr "100.5") (VBool true) = Returns "NaN"%string.
Proof. repeat split; vm_compute; reflexivity. Qed.

(** X22.  Validity of a price is upward closed: a price at least as
    high as a valid price is valid. *)
Theorem isValidPrice_upward_closed (this_market : option market.t) (price price' : value) :
  isValidPrice this_market price = Returns true ->
  ge (ToNumber price') (ToNumber price) = true ->
  isValidPrice this_market price' = Returns true.
Proof.
  unfold isValidPrice, ge. destruct this_market as [m|]; [|discriminate].
  intros [= H] H'. f_equal. exact (SFleb_trans _ _ _ H H').
Qed.

Lemma isValidPrice_upward_closed_witness :
  isValidPrice (Some {| market.pair := ("USDT", "BTC")%string;
                        market.minimal := {| market.amount := num "0.000001";
                                             market.price := num "0.01";
                                             market.order := num "10" |} |})
    (VStr "0.02") = Returns true.
Proof.
  apply (isValidPrice_upward_closed _ (VNum (num "0.01"))); vm_compute; reflexivity.
Defined.

(** X23.  A price that is not a number is never a valid price, a lot
    with a price or an amount that is not a number is never a valid lot,
    and [isValidLot] does not depend on the order of its two
    arguments. *)
Theorem isValid_rejects_NaN (m : market.t) (price amount : value) :
  (isNaN (ToNumber price) = true -> isValidPrice (Some m) price = Returns false)
  /\ (isNaN (ToNumber price) = true \/ isNaN (ToNumber amount) = true ->
      isValidLot (Some m) price amount = Returns false)
  /\ isValidLot (Some m) price amount = isValidLot (Some m) amount price.
Proof.
  unfold isValidPrice, isValidLot, ge. split; [|split].
  - intros H. apply isNaN_eq in H. rewrite H. now rewrite SFleb_NaN_r.
  - intros [H|H]; apply isNaN_eq in H; rewrite H.
    + now rewrite mul_NaN_r, SFleb_NaN_r.
    + change (mul NaN (ToNumber price)) with NaN. now rewrite SFleb_NaN_r.
  - now rewrite mul_comm.
Qed.

(** ** getTrades *)

Lemma push_loop_map {A B : Type} (f : A -> B) (data : list A) (acc : list B) :
  List.fold_left (fun acc x => acc ++ [f x]) data acc = acc ++ List.map f data.
Proof.
  revert acc. induction data as [|x data IH]; intros acc; cbn [fold_left List.map].
  - now rewrite app_nil_r.
  - rewrite IH, <- app_assoc. reflexivity.
Qed.

(** X24.  [getTrades] hands on one parsed trade per trade of the
    response, in the order of the response, and in the reverse of that
    order when [descending] is truthy. *)
Theorem processResults_order (descending err : value) (data : list aggTrade.t) :
  truthy err = false ->
  processResults descending err data
  = callback_result (if truthy descending
                     then List.map parse_trade (List.rev data)
                     else List.map parse_trade data).
Proof.
  intros He. unfold processResults. rewrite He, push_loop_map. cbn [app].
  destruct (truthy descending); [|reflexivity]. now rewrite List.map_rev.
Qed.

Lemma processResults_order_witness :
  processResults (VBool true) VNull
    [ {| aggTrade.aggTradeId := VNum (num "1"); aggTrade.timestamp := 1500000000999;
         aggTrade.price := VStr "100.5"; aggTrade.quantity := VStr "2" |};
      {| aggTrade.aggTradeId := VNum (num "2"); aggTrade.timestamp := 1500000001000;
         aggTrade.price := VStr "101"; aggTrade.quantity := VStr "0.5" |} ]
  = callback_result
      [ {| parsedTrade.tid := VNum (num "2"); parsedTrade.date := 1500000001;
           parsedTrade.price := num "101"; parsedTrade.amount := num "0.5" |};
        {| parsedTrade.tid := VNum (num "1"); parsedTrade.date := 1500000000;
           parsedTrade.price := num "100.5"; parsedTrade.amount := num "2" |} ].
Proof. apply (processResults_order (VBool true) VNull). reflexivity. Defined.

(** X25.  The window [getTrades] asks for, given [since]: it starts at
    [since], ends no later than the time of the call and spans no more
    than one hour.  When [since] lies in the future the window ends
    before it starts. *)
Theorem getTrades_window (this : Trader) (since now : Z) :
  exists e,
    startTime (getTrades_reqData this (Some since) now) = Some since
    /\ endTime (getTrades_reqData this (Some since) now) = Some e
    /\ e <= now /\ e - since <= 3600000
    /\ (since <= now -> since <= e)
    /\ (now < since -> e < since).
Proof.
  unfold getTrades_reqData, moment_add_hour. cbn [startTime endTime].
  eexists. split; [reflexivity|]. split; [reflexivity|].
  destruct (Z.ltb_spec now (since + 3600000)); lia.
Qed.

(** ** getTicker *)

(** X26.  [getTicker] reads the first entry of the list whose symbol
    is the pair: what precedes it (none with that symbol) and whatever
    follows it, further entries for the pair included, plays no part. *)
Theorem setTicker_first_match (this : Trader) (err : value)
  (before after : list ticker.t) (result : ticker.t) :
  truthy err = false ->
  (forall t, In t before -> ticker.symbol t <> pair this) ->
  ticker.symbol result = pair this ->
  setTicker this err (before ++ result :: after)
  = callback_result {| ask := parseFloat (ticker.askPrice result);
                       bid := parseFloat (ticker.bidPrice result) |}.
Proof.
  intros He Hb Hr. unfold setTicker. rewrite He.
  assert (Hf : List.find (fun t => String.eqb (ticker.symbol t) (pair this))
                 (before ++ result :: after) = Some result).
  { induction before as [|b before IH]; cbn [app List.find].
    - now rewrite Hr, String.eqb_refl.
    - assert (Hne : String.eqb (ticker.symbol b) (pair this) = false).
      { apply String.eqb_neq, Hb. now left. }
      rewrite Hne. apply IH. intros t Ht. apply Hb. now right. }
  now rewrite Hf.
Qed.

Lemma setTicker_first_match_witness :
  setTicker {| asset := "BTC"; currency := "USDT" |} VUndefined
    ([ {| ticker.symbol := "ETHBTC"; ticker.askPrice := VStr "0.07";
          ticker.bidPrice := VStr "0.069" |} ]
     ++ {| ticker.symbol := "BTCUSDT"; ticker.askPrice := VStr "101.5";
           ticker.bidPrice := VStr "101" |}
     :: [ {| ticker.symbol := "BTCUSDT"; ticker.askPrice := VStr "1";
             ticker.bidPrice := VStr "1" |} ])
  = callback_result {| ask := parseFloat (VStr "101.5"); bid := parseFloat (VStr "101") |}.
Proof.
  apply (setTicker_first_match {| asset := "BTC"; currency := "USDT" |} VUndefined
           _ _ {| ticker.symbol := "BTCUSDT"; ticker.askPrice := VStr "101.5";
                  ticker.bidPrice := VStr "101" |}).
  - reflexivity.
  - intros t [<-|[]]. discriminate.
  - reflexivity.
Defined.

(** X27.  [getTicker] reports ["Market <pair> not found on Binance"]
    exactly when no entry of the list has the pair for its symbol; it
    never fails on a list that has one. *)
Theorem setTicker_not_listed (this : Trader) (err : value) (data : list ticker.t) :
  truthy err = false ->
  (forall t, In t data -> ticker.symbol t <> pair this) <->
  setTicker this err data
  = callback_error (new_Error ("Market " +:+ pair this +:+ " not found on Binance")).
Proof.
  intros He. unfold setTicker. rewrite He.
  destruct (List.find _ data) as [r|] eqn:Hf.
  - apply List.find_some in Hf as [Hin Hs]. apply String.eqb_eq in Hs.
    split; [intros H; now apply H in Hin | discriminate].
  - split; [reflexivity|]. intros _ t Ht.
    apply (List.find_none _ _ Hf) in Ht. now apply String.eqb_neq.
Qed.

Lemma setTicker_not_listed_witness :
  setTicker {| asset := "BTC"; currency := "USDT" |} VUndefined
    [ {| ticker.symbol := "ETHBTC"; ticker.askPrice := VStr "0.07";
         ticker.bidPrice := VStr "0.069" |} ]
  = callback_error (new_Error "Market BTCUSDT not found on Binance").
Proof.
  apply (proj1 (setTicker_not_listed {| asset := "BTC"; currency := "USDT" |} VUndefined
                  _ eq_refl)).
  intros t [<-|[]]. discriminate.
Defined.

(** ** The constructor *)

(** X28.  The case of the configured names does not matter: the
    instance, and so the market it is bound to, is the same for the names
    as given, in upper case and in lower case (on ASCII letters); and the
    market found, if any, is the entry of the table whose pair is the
    currency and the asset in upper case. *)
Theorem new_Trader_case_insensitive (config : Config) (markets : list market.t) :
  let upper_config := {| config_asset := toUpperCase (config_asset config);
                         config_currency := toUpperCase (config_currency config) |} in
  let lower_config := {| config_asset := toLowerCase (config_asset config);
                         config_currency := toLowerCase (config_currency config) |} in
  new_Trader upper_config = new_Trader config
  /\ new_Trader lower_config = new_Trader config
  /\ forall m, find_market markets (new_Trader config) = Some m ->
               market.pair m = (toUpperCase (config_currency config),
                                toUpperCase (config_asset config)).
Proof.
  cbv zeta. unfold new_Trader. cbn [config_asset config_currency].
  destruct (toUpperCase_idem (config_asset config)) as [-> ->].
  destruct (toUpperCase_idem (config_currency config)) as [-> ->].
  split; [reflexivity|]. split; [reflexivity|].
  intros m Hm. unfold find_market in Hm. apply List.find_some in Hm as [_ Hm].
  cbn [asset currency] in Hm. apply andb_true_iff in Hm as [H1 H2].
  apply String.eqb_eq in H1, H2. destruct (market.pair m) as [c a]. cbn [fst snd] in *.
  now subst.
Qed.

(** ** getFee, addOrder, buy and sell on some values *)

(** The fee [getFee] reports is the double [0.001]; the side of an order
    is in upper case whatever the case of the trade type. *)
Example getFee_and_order_requests :
  getFee = callback_result (num "0.001")
  /\ side (buy_reqData {| asset := "BTC"; currency := "USDT" |}
             (VStr "0.5") (VStr "100.25") 1500000000000) = "BUY"%string
  /\ sell_reqData {| asset := "BTC"; currency := "USDT" |}
       (VStr "0.5") (VStr "100.25") 1500000000000
     = {| order_symbol := "BTCUSDT"; side := "SELL"; order_type := "LIMIT";
          timeInForce := "GTC"; quantity := VStr "0.5"; order_price := VStr "100.25";
          order_timestamp := 1500000000000 |}
  /\ setOrder VUndefined (VNum (num "42")) = callback_result (VNum (num "42")).
Proof. repeat split; vm_compute; reflexivity. Qed.

(** * What round returns *)

(** ** round on whole numbers *)



















